(** * Tello EMG control: the signal-to-command loop and the manual handler

    A shallow embedding of [src/tello_emg_control.py] (class
    [TelloEMGControl]) and of the properties its specification states.

    Modelling conventions.
    - Python floats are idealised as exact rationals ([Q]); equalities
      between computed values are therefore stated with [==] where the two
      sides are computed differently.  The literals [0.2], [1.0], [500.0]
      are the rationals 1/5, 1 and 500.  Where a property depends on the
      rounding of float operations (the bound on the smoothed value), the
      mean is taken with an explicit rounding operator instead
      ([np_mean_fl], [binary64]).
    - [self.emg_buffer], a numpy array of shape (10, 2), is a list of rows,
      each row a pair (column 0, column 1).
    - Calls on [self.drone] are recorded, in order, in a list of
      [DroneCmd]; the drone object itself is an external collaborator and
      its calls are taken to return normally.
    - A Python exception inside a processing function is a [None] result;
      the loop that catches it is modelled with the handler's effect. *)

From Stdlib Require Import QArith Qabs Qminmax Qround ZArith List Bool Lia Lqa.
From Stdlib Require Import Qpower.
Import ListNotations.

Open Scope Q_scope.

(** ** Numeric helpers standing for Python built-ins *)

Module Py.

(** [a < b] on floats, as a boolean. *)
Definition ltb (a b : Q) : bool :=
  match a ?= b with Lt => true | _ => false end.

(** [min(a, b)]: the first argument unless the second is strictly smaller. *)
Definition min (a b : Q) : Q := if ltb b a then b else a.

(** [abs(a)]. *)
Definition abs (a : Q) : Q := Qabs a.

(** [int(a)] on a float: truncation toward zero. *)
Definition int (a : Q) : Z := Z.quot (Qnum a) (Zpos (Qden a)).

(** [round(a)] on a float: the nearest integer, ties to the even one. *)
Definition round (a : Q) : Z :=
  let f := Qfloor a in
  let r := (a - inject_Z f)%Q in
  match Qcompare r (1 # 2) with
  | Lt => f
  | Gt => (f + 1)%Z
  | Eq => if Z.even f then f else (f + 1)%Z
  end.

End Py.

(** ** The smoothing buffer (numpy operations on [self.emg_buffer]) *)

Notation Row := (Q * Q)%type (only parsing).
Notation Buffer := (list (Q * Q)) (only parsing).

Definition emg_buffer_size : nat := 10.

(** [np.zeros((self.emg_buffer_size, 2))]. *)
Definition np_zeros (n : nat) : Buffer := repeat (0, 0) n.

(** [np.roll(buf, -1, axis=0)]: every row moves one place up, the first
    row wraps around to the end. *)
Definition np_roll (buf : Buffer) : Buffer :=
  match buf with
  | [] => []
  | r :: rest => rest ++ [r]
  end.

(** [buf[-1] = row]; [IndexError] on an array with no rows. *)
Definition set_last (buf : Buffer) (row : Row) : option Buffer :=
  match buf with
  | [] => None
  | _ :: _ => Some (removelast buf ++ [row])
  end.

(** The value a Python list takes when assigned to a row of width 2:
    two elements fill the row, one element is broadcast, any other length
    raises [ValueError]. *)
Definition row_of_list (l : list Q) : option Row :=
  match l with
  | [x; y] => Some (x, y)
  | [x] => Some (x, x)
  | _ => None
  end.

Definition Qsum (l : list Q) : Q := fold_right Qplus 0 l.

(** [np.mean] of a one-dimensional array, in exact arithmetic; the
    version that rounds every float operation is [np_mean_fl]. *)
Definition np_mean (l : list Q) : Q :=
  Qsum l / inject_Z (Z.of_nat (length l)).

Definition column0 (buf : Buffer) : list Q := map fst buf.
Definition column1 (buf : Buffer) : list Q := map snd buf.

(** ** Intent classification *)

Inductive Command : Type := forward | backward | hover.

(** Lines 245-251 of [process_joystick]. *)
Definition classify_joystick (x_value : Q) : Command * Q :=
  if Py.ltb x_value (- (2 # 10)) then (backward, Py.min (Py.abs x_value) 1)
  else if Py.ltb (2 # 10) x_value then (forward, Py.min (Py.abs x_value) 1)
  else (hover, 0).

(** Lines 273-278 of [process_raw_emg]. *)
Definition classify_raw (normalized : Q) : Command * Q :=
  if Py.ltb (2 # 10) normalized then (forward, Py.min normalized 1)
  else if Py.ltb normalized (- (2 # 10)) then
    (backward, Py.min (Py.abs normalized) 1)
  else (hover, 0).

(** ** The controller object *)

Inductive StreamType : Type := UNKNOWN | EMGJoystick | EMG | SIMULATION.

Definition StreamType_eqb (a b : StreamType) : bool :=
  match a, b with
  | UNKNOWN, UNKNOWN | EMGJoystick, EMGJoystick
  | EMG, EMG | SIMULATION, SIMULATION => true
  | _, _ => false
  end.

(** The fields of [TelloEMGControl] that the two loops read or write.
    [self.drone] is kept apart: calls on it are the emitted [DroneCmd]s. *)
Record TelloEMGControl : Type := mkControl {
  emg_buffer : Buffer;
  is_flying : bool;
  speed : Z;
  stream_type : StreamType;
  running : bool
}.

Definition set_emg_buffer (self : TelloEMGControl) (b : Buffer) :=
  mkControl b (is_flying self) (speed self) (stream_type self) (running self).

Definition set_is_flying (self : TelloEMGControl) (f : bool) :=
  mkControl (emg_buffer self) f (speed self) (stream_type self) (running self).

Definition set_running (self : TelloEMGControl) (r : bool) :=
  mkControl (emg_buffer self) (is_flying self) (speed self) (stream_type self) r.

(** [TelloEMGControl.__init__]. *)
Definition init : TelloEMGControl :=
  mkControl (np_zeros emg_buffer_size) false 30 UNKNOWN true.

(** The calls made on [self.drone]. *)
Inductive DroneCmd : Type :=
| takeoff
| land
| end_
| send_rc_control (left_right forward_backward up_down yaw : Z).

(** ** Signal processing *)

(** Lines 232-233 and 263-264: roll the buffer and overwrite its last row.
    The roll is assigned to [self.emg_buffer] before the row assignment can
    raise, so a failure leaves the rolled buffer behind. *)
Definition push_row (self : TelloEMGControl) (row : option Row)
  : TelloEMGControl * bool :=
  let rolled := np_roll (emg_buffer self) in
  match row with
  | None => (set_emg_buffer self rolled, false)
  | Some r =>
      match set_last rolled r with
      | None => (set_emg_buffer self rolled, false)
      | Some b => (set_emg_buffer self b, true)
      end
  end.

(** Lines 236-241: [x_value = np.mean(self.emg_buffer, axis=0)[0]]. *)
Definition x_value (self : TelloEMGControl) : Q :=
  np_mean (column0 (emg_buffer self)).

(** [process_joystick]: the new object state and the returned pair, or
    [None] where the Python raises. *)
Definition process_joystick (self : TelloEMGControl) (joystick_data : list Q)
  : TelloEMGControl * option (Command * Q) :=
  let (self', ok) := push_row self (row_of_list joystick_data) in
  if ok then (self', Some (classify_joystick (x_value self')))
  else (self', None).

(** The two shapes [process_raw_emg] accepts for [emg_data]. *)
Inductive EmgData : Type :=
| Scalar (v : Q)
| Sequence (l : list Q).

(** Lines 257-260.  An empty sequence fails the [len(emg_data) > 0] test
    and is taken as the value itself; it is not a number, and the row
    assignment of line 264 raises on it: [None]. *)
Definition first_channel (emg_data : EmgData) : option Q :=
  match emg_data with
  | Sequence (v :: _) => Some v
  | Sequence [] => None
  | Scalar v => Some v
  end.

(** Lines 267-270: [np.mean(self.emg_buffer[:, 1]) / 500.0]. *)
Definition normalized (self : TelloEMGControl) : Q :=
  np_mean (column1 (emg_buffer self)) / 500.

(** [process_raw_emg]. *)
Definition process_raw_emg (self : TelloEMGControl) (emg_data : EmgData)
  : TelloEMGControl * option (Command * Q) :=
  let row := option_map (fun value => (0, value)) (first_channel emg_data) in
  let (self', ok) := push_row self row in
  if ok then (self', Some (classify_raw (normalized self')))
  else (self', None).

(** ** The EMG control loop *)

(** Lines 346-357 (and, word for word, 310-321 of the simulation loop):
    scale the intensity and send the command when the drone is flying. *)
Definition emg_actuation (self : TelloEMGControl) (command : Command)
  (intensity : Q) : list DroneCmd :=
  let speed_scaled := Py.int (inject_Z (speed self) * intensity) in
  if is_flying self then
    match command with
    | forward => [send_rc_control 0 speed_scaled 0 0]
    | backward => [send_rc_control 0 (- speed_scaled) 0 0]
    | hover => [send_rc_control 0 0 0 0]
    end
  else [].

(** What one pass of a loop body leaves: the object and the drone calls. *)
Definition Outcome : Type := (TelloEMGControl * list DroneCmd)%type.

(** The part of an iteration after the processing function returned;
    a raised exception reaches the handler of lines 363-365. *)
Definition actuate_or_stop (r : TelloEMGControl * option (Command * Q))
  : Outcome :=
  match r with
  | (self', Some (command, intensity)) =>
      (self', emg_actuation self' command intensity)
  | (self', None) => (set_running self' false, [])
  end.

(** One iteration of the LSL loop, lines 331-359.  [pulled] is what
    [self.inlet.pull_sample(timeout=0.1)] gave: [None] on a timeout. *)
Definition lsl_iteration (self : TelloEMGControl) (pulled : option (list Q))
  : Outcome :=
  match pulled with
  | None => (self, [])
  | Some [] => (self, [])
  | Some sample =>
      if StreamType_eqb (stream_type self) EMGJoystick
         || Nat.eqb (length sample) 2
      then actuate_or_stop (process_joystick self sample)
      else actuate_or_stop (process_raw_emg self (Sequence sample))
  end.

(** One iteration of the simulation loop, lines 296-323, on the generated
    sample [[x, y]].  This loop has no handler of its own; on a sample of
    two values and a buffer with rows [process_joystick] does not raise
    (see [process_joystick_pair]), so no exception arises here. *)
Definition simulation_iteration (self : TelloEMGControl) (xy : Q * Q)
  : Outcome :=
  actuate_or_stop (process_joystick self [fst xy; snd xy]).

(** A [while self.running] loop over the inputs its iterations consume. *)
Fixpoint while_running {A : Type} (body : TelloEMGControl -> A -> Outcome)
  (self : TelloEMGControl) (inputs : list A) : Outcome :=
  match inputs with
  | [] => (self, [])
  | i :: rest =>
      if running self then
        let (self1, sent1) := body self i in
        let (self2, sent2) := while_running body self1 rest in
        (self2, sent1 ++ sent2)
      else (self, [])
  end.

(** The source the loop draws from, by mode. *)
Inductive SampleSource : Type :=
| Inlet (pulls : list (option (list Q)))
| Generator (samples : list (Q * Q)).

(** [emg_control_loop], once an inlet or the simulation mode is there. *)
Definition emg_control_loop (self : TelloEMGControl) (src : SampleSource)
  : Outcome :=
  match src with
  | Generator samples => while_running simulation_iteration self samples
  | Inlet pulls => while_running lsl_iteration self pulls
  end.

(** ** The keyboard loop *)

(** The keys [keyboard_control] looks at in [pygame.key.get_pressed()]. *)
Record Keys : Type := mkKeys {
  K_t : bool;
  K_l : bool;
  K_r : bool;
  K_LSHIFT : bool;
  K_q : bool
}.

Inductive Event : Type := QUIT | OtherEvent.

Definition is_QUIT (e : Event) : bool :=
  match e with QUIT => true | OtherEvent => false end.

(** What one frame of the loop reads: the queued events and the keys held. *)
Record Frame : Type := mkFrame {
  events : list Event;
  keys : Keys
}.

(** The locals of [keyboard_control] that survive a frame. *)
Record Rotation : Type := mkRotation {
  is_rotating_clockwise : bool;
  is_rotating_counterclockwise : bool
}.

(** The state a frame works on, and a frame's block as a state transformer
    that also records the calls made on the drone. *)
Definition Ctl : Type := (TelloEMGControl * Rotation)%type.
Definition Act : Type := Ctl -> Ctl * list DroneCmd.

Definition seq (a b : Act) : Act :=
  fun c =>
    let (c1, sent1) := a c in
    let (c2, sent2) := b c1 in
    (c2, sent1 ++ sent2).

Notation "a ;; b" := (seq a b) (at level 61, right associativity).

(** [if self.is_flying: self.drone.land()], as lines 405-406 and 452-453
    have it: the flag is left as it was. *)
Definition land_if_flying (self : TelloEMGControl) : list DroneCmd :=
  if is_flying self then [land] else [].

(** Lines 402-408: the first [QUIT] event lands, clears [running] and
    leaves the [for] loop; the frame goes on. *)
Definition handle_events (evs : list Event) : Act :=
  fun '(self, rot) =>
    if existsb is_QUIT evs
    then ((set_running self false, rot), land_if_flying self)
    else ((self, rot), []).

(** Lines 413-427: takeoff on [t], else landing on [l]. *)
Definition handle_takeoff_land (k : Keys) : Act :=
  fun '(self, rot) =>
    if K_t k && negb (is_flying self)
    then ((set_is_flying self true, rot), [takeoff])
    else if K_l k && is_flying self
    then ((set_is_flying self false, rot), [land])
    else ((self, rot), []).

(** Lines 429-437: clockwise rotation while [r] is held. *)
Definition handle_rotate_clockwise (k : Keys) : Act :=
  fun '(self, rot) =>
    if K_r k && is_flying self
    then ((self, mkRotation true (is_rotating_counterclockwise rot)),
          [send_rc_control 0 0 0 (speed self)])
    else if is_rotating_clockwise rot
    then ((self, mkRotation false (is_rotating_counterclockwise rot)),
          [send_rc_control 0 0 0 0])
    else ((self, rot), []).

(** Lines 439-447: counter-clockwise rotation while [r] and the left shift
    key are held. *)
Definition handle_rotate_counterclockwise (k : Keys) : Act :=
  fun '(self, rot) =>
    if (K_r k && K_LSHIFT k) && is_flying self
    then ((self, mkRotation (is_rotating_clockwise rot) true),
          [send_rc_control 0 0 0 (- speed self)])
    else if is_rotating_counterclockwise rot
    then ((self, mkRotation (is_rotating_clockwise rot) false),
          [send_rc_control 0 0 0 0])
    else ((self, rot), []).

(** Lines 449-455: [q] lands, clears [running] and leaves the loop. *)
Definition handle_quit (k : Keys) : Act :=
  fun '(self, rot) =>
    if K_q k
    then ((set_running self false, rot), land_if_flying self)
    else ((self, rot), []).

(** One pass of the [while] body, lines 401-458. *)
Definition keyboard_frame (f : Frame) : Act :=
  handle_events (events f) ;;
  handle_takeoff_land (keys f) ;;
  handle_rotate_clockwise (keys f) ;;
  handle_rotate_counterclockwise (keys f) ;;
  handle_quit (keys f).

(** [keyboard_control], from the state its locals start in; the loop ends
    when [running] is cleared (the [break] of line 455 comes with it). *)
Fixpoint keyboard_loop (c : Ctl) (frames : list Frame) : Ctl * list DroneCmd :=
  match frames with
  | [] => (c, [])
  | f :: rest =>
      if running (fst c) then
        let (c1, sent1) := keyboard_frame f c in
        let (c2, sent2) := keyboard_loop c1 rest in
        (c2, sent1 ++ sent2)
      else (c, [])
  end.

Definition keyboard_control (self : TelloEMGControl) (frames : list Frame)
  : TelloEMGControl * list DroneCmd :=
  let (c, sent) := keyboard_loop (self, mkRotation false false) frames in
  (fst c, sent).

(** The [finally] block of [run], lines 515-522.  [self.drone] was set by
    [connect_to_drone] before the loops start, so [end()] is called. *)
Definition shutdown (self : TelloEMGControl) : TelloEMGControl * list DroneCmd :=
  (set_running self false, land_if_flying self ++ [end_]).

(** The main thread of [run] from the keyboard loop on. *)
Definition run_main (self : TelloEMGControl) (frames : list Frame)
  : TelloEMGControl * list DroneCmd :=
  let (self1, sent1) := keyboard_control self frames in
  let (self2, sent2) := shutdown self1 in
  (self2, sent1 ++ sent2).

(** ** The two threads together *)

(** A step of the program: an iteration of the EMG thread or a frame of
    the keyboard thread; either thread only steps while [running].  Whole
    iterations and frames are the grain of this model: an iteration that
    passed its loop test before the other thread cleared [running], or
    that reads [is_flying] in the middle of a frame, is not a step of it.
    What is stated of single iterations, frames and calls is therefore
    stated for every state they can start in. *)
Inductive Step : Type :=
| EmgPull (pulled : option (list Q))
| EmgGenerated (xy : Q * Q)
| KeyboardFrame (f : Frame).

Definition lift_emg (o : Outcome) (rot : Rotation) : Ctl * list DroneCmd :=
  ((fst o, rot), snd o).

Definition system_step (c : Ctl) (s : Step) : Ctl * list DroneCmd :=
  if running (fst c) then
    match s with
    | EmgPull pulled => lift_emg (lsl_iteration (fst c) pulled) (snd c)
    | EmgGenerated xy => lift_emg (simulation_iteration (fst c) xy) (snd c)
    | KeyboardFrame f => keyboard_frame f c
    end
  else (c, []).

Fixpoint system_run (c : Ctl) (steps : list Step) : Ctl * list DroneCmd :=
  match steps with
  | [] => (c, [])
  | s :: rest =>
      let (c1, sent1) := system_step c s in
      let (c2, sent2) := system_run c1 rest in
      (c2, sent1 ++ sent2)
  end.

(** The same keys with [t], respectively [l], not held. *)
Definition release_t (k : Keys) : Keys :=
  mkKeys false (K_l k) (K_r k) (K_LSHIFT k) (K_q k).
Definition release_l (k : Keys) : Keys :=
  mkKeys (K_t k) false (K_r k) (K_LSHIFT k) (K_q k).

(** Frames in which exactly the named keys are held, no event queued. *)
Definition no_keys : Keys := mkKeys false false false false false.
Definition frame_idle : Frame := mkFrame [] no_keys.
Definition frame_t : Frame := mkFrame [] (mkKeys true false false false false).
Definition frame_l : Frame := mkFrame [] (mkKeys false true false false false).
Definition frame_r : Frame := mkFrame [] (mkKeys false false true false false).
Definition frame_shift_r : Frame :=
  mkFrame [] (mkKeys false false true true false).
Definition frame_q : Frame := mkFrame [] (mkKeys false false false false true).

(** The steps that belong to the EMG thread. *)
Definition is_emg_step (s : Step) : bool :=
  match s with KeyboardFrame _ => false | _ => true end.

Definition count_cmd (p : DroneCmd -> bool) (sent : list DroneCmd) : nat :=
  length (filter p sent).

Definition is_land (c : DroneCmd) : bool :=
  match c with land => true | _ => false end.
Definition is_end (c : DroneCmd) : bool :=
  match c with end_ => true | _ => false end.
Definition is_takeoff (c : DroneCmd) : bool :=
  match c with takeoff => true | _ => false end.
Definition is_rc (c : DroneCmd) : bool :=
  match c with send_rc_control _ _ _ _ => true | _ => false end.

(** ** Vocabulary of the statements *)

(** The smoother fed with a sequence of samples: [process_joystick] called
    on each in turn; the object after the last call. *)
Fixpoint observe_all (self : TelloEMGControl) (samples : list (list Q))
  : TelloEMGControl :=
  match samples with
  | [] => self
  | s :: rest => observe_all (fst (process_joystick self s)) rest
  end.

(** A two-channel sample as the list the stream delivers. *)
Definition sample_of (xy : Q * Q) : list Q := [fst xy; snd xy].

(** The last [n] elements of a list (all of it when it is shorter). *)
Definition lastn {A : Type} (n : nat) (l : list A) : list A :=
  skipn (length l - n) l.

Fixpoint Qlist_min (l : list Q) : Q :=
  match l with
  | [] => 0
  | [x] => x
  | x :: t => Qmin x (Qlist_min t)
  end.

Fixpoint Qlist_max (l : list Q) : Q :=
  match l with
  | [] => 0
  | [x] => x
  | x :: t => Qmax x (Qlist_max t)
  end.

(** ** Stream detection *)

(** The end of [connect_to_lsl_direct], lines 209-223, on the test sample
    [self.inlet.pull_sample(timeout=5.0)] gave: the stream type the
    controller settles on, or [None] where the function returns [False]
    (no data within the timeout). *)
Definition detect_stream_type (sample : option (list Q)) : option StreamType :=
  match sample with
  | None => None
  | Some [] => None
  | Some s => Some (if Nat.eqb (length s) 2 then EMGJoystick else EMG)
  end.

(** ** The simulated drone *)

Module TelloSimulator.

(** The attributes of [TelloSimulator]; [position] is the list [x, y, z]. *)
Record t : Type := mk {
  battery : Z;
  speed : Z;
  position : Q * Q * Q;
  is_flying : bool
}.

(** [TelloSimulator.__init__]. *)
Definition init : t := mk 100 0 (0, 0, 0) false.

Definition get_battery (self : t) : Z := battery self.

Definition set_speed (self : t) (v : Z) : t :=
  mk (battery self) v (position self) (is_flying self).

(** Lines 81-84: airborne, 100 cm above the ground. *)
Definition takeoff (self : t) : t :=
  let '(x, y, _) := position self in
  mk (battery self) (speed self) (x, y, 100) true.

(** Lines 86-89: grounded, back at the origin. *)
Definition land (self : t) : t :=
  mk (battery self) (speed self) (0, 0, 0) false.

(** Lines 91-97: nothing on the ground; airborne, each axis moves by a
    tenth of its command (yaw moves nothing).  The sums are exact here,
    where the code rounds each [+=] and each product with [0.1]; the
    properties stated of the position are those that hold either way. *)
Definition send_rc_control (self : t)
  (left_right forward_backward up_down yaw : Z) : t :=
  if negb (is_flying self) then self
  else
    let '(x, y, z) := position self in
    mk (battery self) (speed self)
       (x + inject_Z left_right * (1 # 10),
        y + inject_Z forward_backward * (1 # 10),
        z + inject_Z up_down * (1 # 10))
       (is_flying self).

(** Lines 125-126. *)
Definition end_ (self : t) : t := self.

End TelloSimulator.

(** The simulator as the receiver of the controller's calls. *)
Definition sim_call (sim : TelloSimulator.t) (c : DroneCmd) : TelloSimulator.t :=
  match c with
  | takeoff => TelloSimulator.takeoff sim
  | land => TelloSimulator.land sim
  | end_ => TelloSimulator.end_ sim
  | send_rc_control lr fb ud yaw =>
      TelloSimulator.send_rc_control sim lr fb ud yaw
  end.

Definition sim_calls (sim : TelloSimulator.t) (sent : list DroneCmd)
  : TelloSimulator.t :=
  fold_left sim_call sent sim.

(** ** Shapes of commands *)

(** A [send_rc_control] that drives the pitch axis only, within [bound]. *)
Definition is_pitch_only (bound : Z) (c : DroneCmd) : bool :=
  match c with
  | send_rc_control lr fb ud yaw =>
      Z.eqb lr 0 && Z.eqb ud 0 && Z.eqb yaw 0 && Z.leb (Z.abs fb) bound
  | _ => false
  end.

(** A [send_rc_control] that drives the yaw axis only, at [sp], [-sp] or 0. *)
Definition is_yaw_only (sp : Z) (c : DroneCmd) : bool :=
  match c with
  | send_rc_control lr fb ud yaw =>
      Z.eqb lr 0 && Z.eqb fb 0 && Z.eqb ud 0 &&
      (Z.eqb yaw sp || Z.eqb yaw (- sp) || Z.eqb yaw 0)
  | _ => false
  end.

Definition is_stop (c : DroneCmd) : bool :=
  match c with
  | send_rc_control lr fb ud yaw =>
      Z.eqb lr 0 && Z.eqb fb 0 && Z.eqb ud 0 && Z.eqb yaw 0
  | _ => false
  end.

(** The pitch a command carries (0 for the discrete calls). *)
Definition pitch_of (c : DroneCmd) : Z :=
  match c with
  | send_rc_control _ fb _ _ => fb
  | _ => 0%Z
  end.

(** A pull that the LSL loop skips: a timeout or an empty sample. *)
Definition is_skipped (pulled : option (list Q)) : bool :=
  match pulled with
  | None => true
  | Some [] => true
  | Some _ => false
  end.

(** A frame that asks to quit: [q] held or a window-close event queued. *)
Definition asks_quit (f : Frame) : bool :=
  K_q (keys f) || existsb is_QUIT (events f).

(** What the EMG loop leaves of the controller besides the buffer
    contents and [running]. *)
Definition same_settings (a b : TelloEMGControl) : Prop :=
  speed b = speed a /\ stream_type b = stream_type a /\
  length (emg_buffer b) = length (emg_buffer a).

(** Every sample a stream of [n] channels delivers has [n] values. *)
Definition has_channels (n : nat) (pulled : option (list Q)) : Prop :=
  match pulled with
  | None => True
  | Some s => length s = n
  end.

(** The coordinates of the simulated drone. *)
Definition pos_x (sim : TelloSimulator.t) : Q :=
  fst (fst (TelloSimulator.position sim)).
Definition pos_y (sim : TelloSimulator.t) : Q :=
  snd (fst (TelloSimulator.position sim)).
Definition pos_z (sim : TelloSimulator.t) : Q :=
  snd (TelloSimulator.position sim).

(** ** Float arithmetic made explicit *)

(** The exponent of the binade of a non-zero [q]: the [k] with
    [2^k <= |q| < 2^(k+1)]. *)
Definition ilog2 (q : Q) : Z :=
  let k := (Z.log2 (Z.abs (Qnum q)) - Z.log2 (Zpos (Qden q)))%Z in
  match Qcompare (Qpower 2 k) (Qabs q) with
  | Gt => (k - 1)%Z
  | _ => k
  end.

(** Rounding to the nearest double: 53 significant bits, ties to the even
    significand.  The exponent is not bounded: overflow to infinity and
    subnormal numbers are left out. *)
Definition binary64 (q : Q) : Q :=
  match Qnum q with
  | Z0 => 0
  | _ =>
      let e := (ilog2 q - 52)%Z in
      inject_Z (Py.round (q * Qpower 2 (- e))) * Qpower 2 e
  end.

(** [np.add.reduce] down the rows of a column, as numpy accumulates it:
    the first value, then one rounded addition per further row. *)
Definition fl_sum (rnd : Q -> Q) (l : list Q) : Q :=
  match l with
  | [] => 0
  | x :: t => fold_left (fun acc v => rnd (acc + v)) t x
  end.

(** [np.mean] of a column with every float operation rounded by [rnd]:
    the accumulated sum, then one rounded division by the row count.
    With [rnd] the identity this is [np_mean]; with [binary64] it is the
    mean the code computes. *)
Definition np_mean_fl (rnd : Q -> Q) (l : list Q) : Q :=
  rnd (fl_sum rnd l / inject_Z (Z.of_nat (length l))).

(** Lines 236-241 with the rounding made explicit. *)
Definition x_value_fl (rnd : Q -> Q) (self : TelloEMGControl) : Q :=
  np_mean_fl rnd (column0 (emg_buffer self)).

(** A rounding that never reverses the order of two numbers, as rounding
    to nearest does. *)
Definition monotone (rnd : Q -> Q) : Prop :=
  forall a b : Q, a <= b -> rnd a <= rnd b.

(** * Properties *)

(** ** Python built-ins *)

Lemma ltb_lt (a b : Q) : Py.ltb a b = true <-> a < b.
Proof.
  unfold Py.ltb. rewrite Qlt_alt. destruct (a ?= b); split; congruence.
Qed.

Lemma ltb_ge (a b : Q) : Py.ltb a b = false <-> b <= a.
Proof.
  rewrite <- not_true_iff_false, ltb_lt. split.
  - apply Qnot_lt_le.
  - apply Qle_not_lt.
Qed.

Lemma Qabs_cases (x : Q) :
  (0 <= x /\ Qabs x == x) \/ (x <= 0 /\ Qabs x == - x).
Proof.
  destruct (Qlt_le_dec x 0) as [H | H].
  - right. split; [lra | apply Qabs_neg; lra].
  - left. split; [assumption | now apply Qabs_pos].
Qed.

(** Turns the boolean tests of the classifiers into order facts. *)
Ltac order_facts :=
  repeat match goal with
  | H : Py.ltb _ _ = true |- _ => apply ltb_lt in H
  | H : Py.ltb _ _ = false |- _ => apply ltb_ge in H
  end.

Ltac split_tests :=
  repeat match goal with
  | |- context [Py.ltb ?a ?b] =>
      let E := fresh "E" in destruct (Py.ltb a b) eqn:E; order_facts
  end.

(** The intensity the joystick classifier returns, in closed form. *)
Lemma classify_joystick_intensity (x : Q) :
  snd (classify_joystick x) ==
  if Py.ltb (2 # 10) (Qabs x) then Py.min (Qabs x) 1 else 0.
Proof.
  unfold classify_joystick, Py.abs, Py.min.
  destruct (Qabs_cases x) as [[Hx Ha] | [Hx Ha]];
    split_tests; simpl; lra.
Qed.

Lemma classify_raw_intensity (x : Q) :
  snd (classify_raw x) ==
  if Py.ltb (2 # 10) (Qabs x) then Py.min (Qabs x) 1 else 0.
Proof.
  unfold classify_raw, Py.abs, Py.min.
  destruct (Qabs_cases x) as [[Hx Ha] | [Hx Ha]];
    split_tests; simpl; lra.
Qed.

Lemma intensity_closed_form_mono (x y : Q) :
  Qabs x <= Qabs y ->
  (if Py.ltb (2 # 10) (Qabs x) then Py.min (Qabs x) 1 else 0) <=
  (if Py.ltb (2 # 10) (Qabs y) then Py.min (Qabs y) 1 else 0).
Proof.
  intros Hxy. unfold Py.min. split_tests; lra.
Qed.

Lemma intensity_closed_form_le_1 (x : Q) :
  (if Py.ltb (2 # 10) (Qabs x) then Py.min (Qabs x) 1 else 0) <= 1.
Proof.
  unfold Py.min. split_tests; lra.
Qed.

(** ** The classifier (C3) *)

(** C3.  With the threshold T = 0.2, both classifiers (the one of
    [process_joystick] and the one of [process_raw_emg]) return Hover with
    intensity 0 on the closed dead zone [-T <= x <= T], so [x = T] is
    Hover; Forward with intensity min(x, 1) for [x > T]; Backward with
    intensity min(|x|, 1) for [x < -T].  The intensity does not decrease
    when |x| grows and never exceeds 1. *)
Theorem classify_dead_zone_and_intensity (x : Q) :
  (- (2 # 10) <= x <= 2 # 10 ->
     classify_joystick x = (hover, 0) /\ classify_raw x = (hover, 0)) /\
  (2 # 10 < x ->
     fst (classify_joystick x) = forward /\
     snd (classify_joystick x) == Py.min x 1 /\
     classify_raw x = (forward, Py.min x 1)) /\
  (x < - (2 # 10) ->
     fst (classify_joystick x) = backward /\
     snd (classify_joystick x) == Py.min (Qabs x) 1 /\
     classify_raw x = (backward, Py.min (Qabs x) 1)) /\
  (forall y, Qabs x <= Qabs y ->
     snd (classify_joystick x) <= snd (classify_joystick y) /\
     snd (classify_raw x) <= snd (classify_raw y)) /\
  (snd (classify_joystick x) <= 1 /\ snd (classify_raw x) <= 1).
Proof.
  repeat split.
  - destruct H as [Hlo Hhi]. unfold classify_joystick.
    split_tests; try reflexivity; lra.
  - destruct H as [Hlo Hhi]. unfold classify_raw.
    split_tests; try reflexivity; lra.
  - unfold classify_joystick. split_tests; try reflexivity; lra.
  - unfold classify_joystick, Py.abs, Py.min.
    destruct (Qabs_cases x) as [[Hx Ha] | [Hx Ha]]; split_tests; simpl; lra.
  - unfold classify_raw. split_tests; try reflexivity; lra.
  - unfold classify_joystick. split_tests; try reflexivity; lra.
  - unfold classify_joystick, Py.abs, Py.min.
    destruct (Qabs_cases x) as [[Hx Ha] | [Hx Ha]]; split_tests; simpl; lra.
  - unfold classify_raw, Py.abs. split_tests; try reflexivity; lra.
  - rewrite !classify_joystick_intensity.
    now apply intensity_closed_form_mono.
  - rewrite !classify_raw_intensity.
    now apply intensity_closed_form_mono.
  - rewrite classify_joystick_intensity. apply intensity_closed_form_le_1.
  - rewrite classify_raw_intensity. apply intensity_closed_form_le_1.
Qed.

(** The boundary sample [x = 0.2] is Hover, [x = 0.5] is Forward at 0.5,
    [x = -3] is Backward at the clamp. *)
Lemma classify_dead_zone_and_intensity_witness :
  classify_joystick (2 # 10) = (hover, 0) /\
  fst (classify_joystick (1 # 2)) = forward /\
  classify_raw (- (3)) = (backward, Py.min (Qabs (- (3))) 1).
Proof.
  split; [| split].
  - apply (classify_dead_zone_and_intensity (2 # 10)).
    split; unfold Qle; simpl; lia.
  - apply (classify_dead_zone_and_intensity (1 # 2)).
    unfold Qlt; simpl; lia.
  - apply (classify_dead_zone_and_intensity (- (3))).
    unfold Qlt; simpl; lia.
Defined.

(** ** The smoothing window (C4) *)

Lemma push_row_nonempty (self : TelloEMGControl) (r0 : Row) (rest : Buffer)
  (r : Row) :
  emg_buffer self = r0 :: rest ->
  push_row self (Some r) = (set_emg_buffer self (rest ++ [r]), true).
Proof.
  intros E. unfold push_row. rewrite E. simpl.
  destruct (rest ++ [r0]) eqn:Eapp.
  - destruct rest; discriminate.
  - rewrite <- Eapp. unfold set_last. rewrite Eapp, <- Eapp.
    now rewrite removelast_last.
Qed.

Lemma lastn_push {A : Type} (n : nat) (r0 : A) (rest : list A) (r : A)
  (more : list A) :
  length (r0 :: rest) = n ->
  lastn n ((r0 :: rest) ++ r :: more) = lastn n ((rest ++ [r]) ++ more).
Proof.
  intros L. unfold lastn. subst n.
  rewrite <- (app_assoc rest [r] more).
  change ([r] ++ more) with (r :: more).
  change ((r0 :: rest) ++ r :: more) with (r0 :: (rest ++ r :: more)).
  replace (length (r0 :: rest ++ r :: more) - length (r0 :: rest))%nat
    with (S (length more)) by (simpl; rewrite length_app; simpl; lia).
  replace (length (rest ++ r :: more) - length (r0 :: rest))%nat
    with (length more) by (simpl; rewrite length_app; simpl; lia).
  reflexivity.
Qed.

Lemma lastn_all {A : Type} (l : list A) : lastn (length l) l = l.
Proof. unfold lastn. now rewrite Nat.sub_diag. Qed.

(** On a two-channel sample and a buffer with rows, [process_joystick]
    does not raise: it drops the oldest row and appends the sample. *)
Lemma process_joystick_pair (self : TelloEMGControl) (r0 : Row)
  (rest : Buffer) (xy : Q * Q) :
  emg_buffer self = r0 :: rest ->
  process_joystick self (sample_of xy) =
  (set_emg_buffer self (rest ++ [xy]),
   Some (classify_joystick (x_value (set_emg_buffer self (rest ++ [xy]))))).
Proof.
  intros E. destruct xy as [x y]. unfold process_joystick, sample_of.
  cbn [row_of_list fst snd].
  now rewrite (push_row_nonempty self r0 rest (x, y) E).
Qed.

(** Feeding well-formed samples keeps the last rows: the buffer is the
    tail, of the buffer's own length, of the old rows followed by the new. *)
Lemma observe_all_buffer (samples : list (Q * Q)) :
  forall self : TelloEMGControl,
    emg_buffer self <> [] ->
    emg_buffer (observe_all self (map sample_of samples)) =
    lastn (length (emg_buffer self)) (emg_buffer self ++ samples).
Proof.
  induction samples as [| xy more IH]; intros self Hne.
  - simpl. now rewrite app_nil_r, lastn_all.
  - destruct (emg_buffer self) as [| r0 rest] eqn:E; [congruence |].
    cbn [map observe_all].
    rewrite (process_joystick_pair self r0 rest xy E).
    cbn [fst]. rewrite IH.
    + cbn [emg_buffer set_emg_buffer].
      replace (length (rest ++ [xy])) with (length (r0 :: rest))
        by (rewrite length_app; simpl; lia).
      symmetry. now apply lastn_push.
    + cbn [emg_buffer set_emg_buffer]. destruct rest; discriminate.
Qed.

Lemma Qsum_bounds (lo hi : Q) (l : list Q) :
  (forall v, In v l -> lo <= v <= hi) ->
  inject_Z (Z.of_nat (length l)) * lo <= Qsum l <=
  inject_Z (Z.of_nat (length l)) * hi.
Proof.
  induction l as [| a l IH]; intros H.
  - change (inject_Z (Z.of_nat (length (@nil Q)))) with 0.
    change (Qsum []) with 0. lra.
  - assert (Ha : lo <= a <= hi) by (apply H; now left).
    assert (Hl : forall v, In v l -> lo <= v <= hi)
      by (intros v Hv; apply H; now right).
    specialize (IH Hl).
    change (Qsum (a :: l)) with (a + Qsum l).
    change (length (a :: l)) with (S (length l)).
    rewrite Nat2Z.inj_succ. unfold Z.succ. rewrite inject_Z_plus.
    change (inject_Z 1) with 1. lra.
Qed.

(** The mean of a non-empty list lies between any bounds of its elements. *)
Lemma np_mean_between (lo hi : Q) (l : list Q) :
  l <> [] ->
  (forall v, In v l -> lo <= v <= hi) ->
  lo <= np_mean l <= hi.
Proof.
  intros Hne H. unfold np_mean.
  pose proof (Qsum_bounds lo hi l H) as [Hlo Hhi].
  assert (Hn : 0 < inject_Z (Z.of_nat (length l))).
  { change 0 with (inject_Z 0). rewrite <- Zlt_Qlt.
    destruct l; [congruence | simpl; lia]. }
  split.
  - apply Qle_shift_div_l; [assumption | lra].
  - apply Qle_shift_div_r; [assumption | lra].
Qed.

Lemma Qlist_min_le (l : list Q) (v : Q) : In v l -> Qlist_min l <= v.
Proof.
  induction l as [| a l IH]; intros Hv; [contradiction |].
  destruct l as [| b l].
  - destruct Hv as [-> | []]. simpl. lra.
  - change (Qlist_min (a :: b :: l)) with (Qmin a (Qlist_min (b :: l))).
    destruct Hv as [-> | Hv].
    + apply Q.le_min_l.
    + eapply Qle_trans; [apply Q.le_min_r | now apply IH].
Qed.

Lemma Qlist_max_ge (l : list Q) (v : Q) : In v l -> v <= Qlist_max l.
Proof.
  induction l as [| a l IH]; intros Hv; [contradiction |].
  destruct l as [| b l].
  - destruct Hv as [-> | []]. simpl. lra.
  - change (Qlist_max (a :: b :: l)) with (Qmax a (Qlist_max (b :: l))).
    destruct Hv as [-> | Hv].
    + apply Q.le_max_l.
    + eapply Qle_trans; [now apply IH | apply Q.le_max_r].
Qed.

Lemma lastn_app_ge {A : Type} (n : nat) (a b : list A) :
  (n <= length b)%nat -> lastn n (a ++ b) = lastn n b.
Proof.
  intros H. unfold lastn. rewrite length_app, skipn_app.
  rewrite skipn_all2 by lia. simpl. f_equal. lia.
Qed.

Lemma In_skipn_In {A : Type} (k : nat) (l : list A) (v : A) :
  In v (skipn k l) -> In v l.
Proof.
  intros H. rewrite <- (firstn_skipn k l). apply in_or_app. now right.
Qed.

Lemma In_lastn_app {A : Type} (n : nat) (a b : list A) (v : A) :
  In v (lastn n (a ++ b)) ->
  In v a \/ In v (lastn (Nat.min n (length b)) b).
Proof.
  unfold lastn. rewrite length_app, skipn_app. intros H.
  apply in_app_or in H. destruct H as [H | H].
  - left. revert H. apply In_skipn_In.
  - right.
    replace (length b - Nat.min n (length b))%nat
      with (length a + length b - n - length a)%nat by lia.
    exact H.
Qed.

(** Column 0 of the buffer after the samples: the last ten values of the
    ten initial zeros followed by the observed values. *)
Lemma column0_observed (samples : list (Q * Q)) :
  column0 (emg_buffer (observe_all init (map sample_of samples))) =
  lastn emg_buffer_size (repeat 0 emg_buffer_size ++ map fst samples).
Proof.
  rewrite observe_all_buffer by discriminate.
  unfold column0, lastn.
  rewrite <- skipn_map, map_app, !length_app, !length_map.
  reflexivity.
Qed.

(** The claim as worded fails while the window still holds initial zeros:
    after the single sample [1.0, 0.0] the smoothed value is 1/10 (the
    double nearest 1/10 under double rounding), below the minimum 1 of the
    one observed value. *)
Lemma smoothed_outside_observed_counterexample :
  let samples := [(1, 0)] in
  let xs := map fst samples in
  let smoothed := x_value (observe_all init (map sample_of samples)) in
  let rounded :=
    x_value_fl binary64 (observe_all init (map sample_of samples)) in
  let recent := lastn (Nat.min emg_buffer_size (length xs)) xs in
  samples <> [] /\
  smoothed == 1 # 10 /\
  rounded == binary64 (1 # 10) /\
  ~ (Qlist_min recent <= smoothed <= Qlist_max recent) /\
  ~ (Qlist_min recent <= rounded <= Qlist_max recent).
Proof.
  split; [discriminate |]. split; [| split; [| split]].
  - vm_compute. reflexivity.
  - vm_compute. reflexivity.
  - intros [H _]. vm_compute in H. apply H. reflexivity.
  - intros [H _]. vm_compute in H. apply H. reflexivity.
Qed.

Lemma fold_rounded_mono (rnd : Q -> Q) (t1 t2 : list Q) :
  monotone rnd ->
  Forall2 Qle t1 t2 ->
  forall a1 a2 : Q,
    a1 <= a2 ->
    fold_left (fun acc v => rnd (acc + v)) t1 a1 <=
    fold_left (fun acc v => rnd (acc + v)) t2 a2.
Proof.
  intros Hm H. induction H as [| v1 v2 t1 t2 Hv Ht IH]; intros a1 a2 Ha.
  - exact Ha.
  - simpl. apply IH. apply Hm. lra.
Qed.

(** The rounded mean is monotone in every row. *)
Lemma np_mean_fl_mono (rnd : Q -> Q) (l1 l2 : list Q) :
  monotone rnd ->
  Forall2 Qle l1 l2 ->
  np_mean_fl rnd l1 <= np_mean_fl rnd l2.
Proof.
  intros Hm H. unfold np_mean_fl. apply Hm.
  rewrite (Forall2_length H).
  assert (Hs : fl_sum rnd l1 <= fl_sum rnd l2).
  { destruct H as [| v1 v2 t1 t2 Hv Ht]; [apply Qle_refl |].
    simpl. now apply fold_rounded_mono. }
  unfold Qdiv. apply Qmult_le_compat_r; [exact Hs |].
  apply Qinv_le_0_compat.
  change 0 with (inject_Z 0). rewrite <- Zle_Qle. lia.
Qed.

Lemma Forall2_repeat_below (lo : Q) (w : list Q) :
  (forall v, In v w -> lo <= v) -> Forall2 Qle (repeat lo (length w)) w.
Proof.
  induction w as [| a w IH]; intros H; [constructor |].
  simpl. constructor; [apply H; now left |].
  apply IH. intros v Hv. apply H. now right.
Qed.

Lemma Forall2_repeat_above (hi : Q) (w : list Q) :
  (forall v, In v w -> v <= hi) -> Forall2 Qle w (repeat hi (length w)).
Proof.
  induction w as [| a w IH]; intros H; [constructor |].
  simpl. constructor; [apply H; now left |].
  apply IH. intros v Hv. apply H. now right.
Qed.

Lemma np_mean_fl_between (rnd : Q -> Q) (lo hi : Q) (w : list Q) (n : nat) :
  monotone rnd ->
  length w = n ->
  (forall v, In v w -> lo <= v <= hi) ->
  np_mean_fl rnd (repeat lo n) <= np_mean_fl rnd w <=
  np_mean_fl rnd (repeat hi n).
Proof.
  intros Hm L H. subst n. split; apply np_mean_fl_mono; try exact Hm.
  - apply Forall2_repeat_below. intros v Hv. now apply H.
  - apply Forall2_repeat_above. intros v Hv. now apply H.
Qed.

Lemma fold_exact (rnd : Q -> Q) (t : list Q) :
  (forall q, rnd q == q) ->
  forall a : Q, fold_left (fun acc v => rnd (acc + v)) t a == a + Qsum t.
Proof.
  intros Hex. induction t as [| v t IH]; intros a.
  - change (Qsum []) with 0. simpl. lra.
  - simpl fold_left. rewrite IH, Hex.
    change (Qsum (v :: t)) with (v + Qsum t). lra.
Qed.

(** Without rounding the rounded mean is the exact mean. *)
Lemma np_mean_fl_exact (rnd : Q -> Q) (l : list Q) :
  (forall q, rnd q == q) -> np_mean_fl rnd l == np_mean l.
Proof.
  intros Hex. unfold np_mean_fl, np_mean. rewrite Hex.
  apply Qdiv_comp; [| reflexivity].
  destruct l as [| x t]; [reflexivity |].
  simpl fl_sum. rewrite (fold_exact rnd t Hex).
  change (Qsum (x :: t)) with (x + Qsum t). reflexivity.
Qed.

Lemma np_mean_constant (c : Q) (n : nat) :
  (0 < n)%nat -> np_mean (repeat c n) == c.
Proof.
  intros Hn.
  assert (Hb : c <= np_mean (repeat c n) <= c).
  { apply np_mean_between.
    - destruct n; [lia | discriminate].
    - intros v Hv. apply repeat_spec in Hv. subst v. lra. }
  lra.
Qed.

(** The ten axis values the mean is taken over, and how the observed
    values bound them. *)
Lemma window_of_observed (samples : list (Q * Q)) :
  let xs := map fst samples in
  let w := column0 (emg_buffer (observe_all init (map sample_of samples))) in
  let recent := lastn (Nat.min emg_buffer_size (length xs)) xs in
  length w = emg_buffer_size /\
  (forall v, In v w ->
     Qmin 0 (Qlist_min recent) <= v <= Qmax 0 (Qlist_max recent)) /\
  ((emg_buffer_size <= length xs)%nat ->
   forall v, In v w -> Qlist_min recent <= v <= Qlist_max recent).
Proof.
  intros xs w recent. unfold w. rewrite column0_observed. fold xs.
  split; [| split].
  - unfold lastn. rewrite length_skipn, length_app, repeat_length.
    unfold emg_buffer_size. lia.
  - intros v Hv. apply In_lastn_app in Hv. destruct Hv as [Hz | Hr].
    + apply repeat_spec in Hz. subst v.
      split; [apply Q.le_min_l | apply Q.le_max_l].
    + split.
      * apply (Qle_trans _ (Qlist_min recent));
          [apply Q.le_min_r | now apply Qlist_min_le].
      * apply (Qle_trans _ (Qlist_max recent));
          [now apply Qlist_max_ge | apply Q.le_max_r].
  - intros Hfull v Hv. rewrite lastn_app_ge in Hv by exact Hfull.
    unfold recent. rewrite Nat.min_l by exact Hfull.
    split; [now apply Qlist_min_le | now apply Qlist_max_ge].
Qed.

(** ** Rounding to the nearest double *)

Lemma round_range (a : Q) : (Qfloor a <= Py.round a <= Qfloor a + 1)%Z.
Proof.
  unfold Py.round.
  destruct (Qcompare _ _); [destruct (Z.even _) | |]; lia.
Qed.

Lemma round_mono (a b : Q) : a <= b -> (Py.round a <= Py.round b)%Z.
Proof.
  intros H. pose proof (Qfloor_resp_le a b H) as Hf.
  destruct (Z.eq_dec (Qfloor a) (Qfloor b)) as [E | N].
  - unfold Py.round. rewrite <- E.
    destruct (Qcompare_spec (a - inject_Z (Qfloor a)) (1 # 2));
      destruct (Qcompare_spec (b - inject_Z (Qfloor a)) (1 # 2));
      destruct (Z.even (Qfloor a)); try lia; lra.
  - pose proof (round_range a). pose proof (round_range b). lia.
Qed.

Lemma round_inject (n : Z) : Py.round (inject_Z n) = n.
Proof.
  unfold Py.round. rewrite Qfloor_Z.
  destruct (Qcompare_spec (inject_Z n - inject_Z n) (1 # 2));
    [lra | reflexivity | lra].
Qed.

Lemma pow2_pos (z : Z) : 0 < 2 ^ z.
Proof. apply Qpower_0_lt. lra. Qed.

Lemma pow2_succ (z : Z) : 2 ^ (z + 1) == 2 * 2 ^ z.
Proof. rewrite Qpower_plus by lra. change (2 ^ 1) with 2. lra. Qed.

Lemma pow2_pred (z : Z) : 2 * 2 ^ (z - 1) == 2 ^ z.
Proof.
  rewrite <- (pow2_succ (z - 1)). now replace (z - 1 + 1)%Z with z by lia.
Qed.

(** [ilog2] finds the binade. *)
Lemma ilog2_spec (q : Q) :
  Qnum q <> 0%Z -> 2 ^ ilog2 q <= Qabs q /\ Qabs q < 2 ^ (ilog2 q + 1).
Proof.
  intros Hq. destruct q as [n d]. simpl in Hq.
  unfold ilog2. cbn [Qnum Qden].
  set (ln := Z.log2 (Z.abs n)). set (ld := Z.log2 (Z.pos d)).
  assert (Hn : (0 < Z.abs n)%Z) by lia.
  destruct (Z.log2_spec (Z.abs n) Hn) as [Hn1 Hn2]. fold ln in Hn1, Hn2.
  destruct (Z.log2_spec (Z.pos d) (Pos2Z.is_pos d)) as [Hd1 Hd2].
  fold ld in Hd1, Hd2.
  assert (Hln : (0 <= ln)%Z) by apply Z.log2_nonneg.
  assert (Hld : (0 <= ld)%Z) by apply Z.log2_nonneg.
  assert (Ea : Qabs (n # d) == inject_Z (Z.abs n) / inject_Z (Z.pos d)).
  { unfold Qabs. apply Qmake_Qdiv. }
  set (N := inject_Z (Z.abs n)) in *. set (D := inject_Z (Z.pos d)) in *.
  assert (PN1 : 2 ^ ln <= N).
  { unfold N. rewrite <- (Zpower_Qpower 2 ln Hln). now rewrite <- Zle_Qle. }
  assert (PN2 : N < 2 * 2 ^ ln).
  { unfold N. rewrite <- pow2_succ.
    rewrite <- (Zpower_Qpower 2 (ln + 1)) by lia.
    rewrite <- Zlt_Qlt. replace (ln + 1)%Z with (Z.succ ln) by lia.
    exact Hn2. }
  assert (PD1 : 2 ^ ld <= D).
  { unfold D. rewrite <- (Zpower_Qpower 2 ld Hld). now rewrite <- Zle_Qle. }
  assert (PD2 : D < 2 * 2 ^ ld).
  { unfold D. rewrite <- pow2_succ.
    rewrite <- (Zpower_Qpower 2 (ld + 1)) by lia.
    rewrite <- Zlt_Qlt. replace (ld + 1)%Z with (Z.succ ld) by lia.
    exact Hd2. }
  pose proof (pow2_pos ln) as PNp. pose proof (pow2_pos ld) as PDp.
  assert (Dp : 0 < D) by lra.
  assert (Ek : 2 ^ (ln - ld) == 2 ^ ln / 2 ^ ld)
    by (apply Qpower_minus; lra).
  (* |q| lies strictly between 2^(k-1) and 2^(k+1) *)
  assert (Hup : Qabs (n # d) < 2 * 2 ^ (ln - ld)).
  { rewrite Ea, Ek. apply Qlt_shift_div_r; [exact Dp |].
    assert (E2 : 2 * (2 ^ ln / 2 ^ ld) * D == 2 * 2 ^ ln * (D / 2 ^ ld))
      by (field; lra).
    rewrite E2.
    assert (1 <= D / 2 ^ ld) by (apply Qle_shift_div_l; lra).
    nra. }
  assert (Hlow : 2 ^ (ln - ld) < 2 * Qabs (n # d)).
  { rewrite Ea, Ek. apply Qlt_shift_div_r; [exact PDp |].
    assert (E2 : 2 * (N / D) * 2 ^ ld == N * (2 * 2 ^ ld / D)) by (field; lra).
    rewrite E2.
    assert (1 < 2 * 2 ^ ld / D) by (apply Qlt_shift_div_l; lra).
    nra. }
  destruct (Qcompare_spec (2 ^ (ln - ld)) (Qabs (n # d))) as [E | L | G].
  - rewrite pow2_succ. split; [rewrite E; apply Qle_refl | lra].
  - rewrite pow2_succ. split; lra.
  - replace (ln - ld - 1 + 1)%Z with (ln - ld)%Z by lia.
    pose proof (pow2_pred (ln - ld)). split; lra.
Qed.

Lemma ilog2_mono (a b : Q) :
  Qnum a <> 0%Z -> Qnum b <> 0%Z -> Qabs a <= Qabs b ->
  (ilog2 a <= ilog2 b)%Z.
Proof.
  intros Ha Hb H.
  destruct (ilog2_spec a Ha) as [A1 _]. destruct (ilog2_spec b Hb) as [_ B2].
  assert (L : 2 ^ ilog2 a < 2 ^ (ilog2 b + 1)) by lra.
  apply Qpower_lt_compat_l_inv in L; [lia | lra].
Qed.

Lemma pow2_shift (e : Z) : 2 ^ (- e) * 2 ^ (e + 52) == 2 ^ 52.
Proof.
  rewrite <- Qpower_plus by lra. now replace (- e + (e + 52))%Z with 52%Z by lia.
Qed.

Lemma pow2_cancel (e : Z) : 2 ^ (- e) * 2 ^ e == 1.
Proof.
  rewrite <- Qpower_plus by lra. now replace (- e + e)%Z with 0%Z by lia.
Qed.

(** The significand of a non-zero number, before rounding, has 53 bits. *)
Lemma scaled_range (q : Q) :
  Qnum q <> 0%Z ->
  let s := q * 2 ^ (- (ilog2 q - 52)) in
  (0 < q -> 2 ^ 52 <= s /\ s < 2 * 2 ^ 52) /\
  (q < 0 -> - (2 * 2 ^ 52) < s /\ s <= - 2 ^ 52).
Proof.
  intros Hq s. destruct (ilog2_spec q Hq) as [L U].
  set (e := (ilog2 q - 52)%Z) in *.
  replace (ilog2 q) with (e + 52)%Z in L, U by (unfold e; lia).
  rewrite pow2_succ in U.
  pose proof (pow2_pos (- e)) as Pp. pose proof (pow2_shift e) as Ps.
  set (P := 2 ^ (- e)) in *. set (B := 2 ^ (e + 52)) in *.
  unfold s. fold P. split; intros Sg.
  - rewrite Qabs_pos in L, U by lra. split; nra.
  - rewrite Qabs_neg in L, U by lra. split; nra.
Qed.

Lemma two_52 : 2 ^ 52 == inject_Z (2 ^ 52).
Proof. now rewrite Zpower_Qpower by lia. Qed.

(** The rounded significand stays in the binade or reaches its upper end. *)
Lemma significand_range (q : Q) :
  Qnum q <> 0%Z ->
  let m := Py.round (q * 2 ^ (- (ilog2 q - 52))) in
  (0 < q -> (2 ^ 52 <= m <= 2 * 2 ^ 52)%Z) /\
  (q < 0 -> (- (2 * 2 ^ 52) <= m <= - 2 ^ 52)%Z).
Proof.
  intros Hq m. destruct (scaled_range q Hq) as [Hp Hn].
  pose proof two_52 as T. split; intros Sg.
  - destruct (Hp Sg) as [A B]. split.
    + rewrite <- (round_inject (2 ^ 52)). apply round_mono. lra.
    + rewrite <- (round_inject (2 * 2 ^ 52)). apply round_mono.
      rewrite inject_Z_mult. change (inject_Z 2) with 2. lra.
  - destruct (Hn Sg) as [A B]. split.
    + rewrite <- (round_inject (- (2 * 2 ^ 52))). apply round_mono.
      rewrite inject_Z_opp, inject_Z_mult. change (inject_Z 2) with 2. lra.
    + rewrite <- (round_inject (- 2 ^ 52)). apply round_mono.
      rewrite inject_Z_opp. lra.
Qed.

Lemma Qnum_sign (q : Q) :
  (Qnum q = 0%Z -> q == 0) /\ (Qnum q <> 0%Z -> 0 < q \/ q < 0).
Proof.
  destruct q as [n d]. simpl. split; intros H.
  - subst n. reflexivity.
  - unfold Qlt. simpl. lia.
Qed.

Lemma binary64_unfold (q : Q) :
  Qnum q <> 0%Z ->
  binary64 q =
  inject_Z (Py.round (q * 2 ^ (- (ilog2 q - 52)))) * 2 ^ (ilog2 q - 52).
Proof.
  intros H. unfold binary64. destruct (Qnum q); [congruence | |]; reflexivity.
Qed.

Lemma binary64_zero (q : Q) : Qnum q = 0%Z -> binary64 q = 0.
Proof. intros H. unfold binary64. now rewrite H. Qed.

(** Rounding keeps the sign. *)
Lemma binary64_sign (q : Q) :
  (0 <= q -> 0 <= binary64 q) /\ (q <= 0 -> binary64 q <= 0).
Proof.
  destruct (Z.eq_dec (Qnum q) 0) as [Z0 | NZ].
  - rewrite (binary64_zero q Z0). split; intros; lra.
  - rewrite (binary64_unfold q NZ).
    destruct (significand_range q NZ) as [Hp Hn].
    pose proof (pow2_pos (ilog2 q - 52)) as Pp.
    destruct (proj2 (Qnum_sign q) NZ) as [Sg | Sg]; split; intros H;
      try lra.
    + assert (0 <= inject_Z (Py.round (q * 2 ^ (- (ilog2 q - 52))))).
      { change 0 with (inject_Z 0). rewrite <- Zle_Qle.
        pose proof (Hp Sg). lia. }
      nra.
    + assert (inject_Z (Py.round (q * 2 ^ (- (ilog2 q - 52)))) <= 0).
      { change 0 with (inject_Z 0). rewrite <- Zle_Qle.
        pose proof (Hn Sg). lia. }
      nra.
Qed.

(** Two numbers of one sign in different binades: the powers of two
    between them separate their roundings. *)
Lemma binade_gap (e1 e2 : Z) (m1 m2 : Z) :
  (e1 < e2)%Z -> (m1 <= 2 * 2 ^ 52)%Z -> (2 ^ 52 <= m2)%Z ->
  inject_Z m1 * 2 ^ e1 <= inject_Z m2 * 2 ^ e2.
Proof.
  intros He H1 H2.
  pose proof (pow2_pos e1) as P1. pose proof (pow2_pos e2) as P2.
  assert (G : 2 * 2 ^ e1 <= 2 ^ e2).
  { rewrite <- pow2_succ. apply Qpower_le_compat_l; [lia | lra]. }
  assert (A : inject_Z m1 <= 2 * 2 ^ 52).
  { rewrite two_52. change 2 with (inject_Z 2) at 1.
    rewrite <- inject_Z_mult, <- Zle_Qle. exact H1. }
  assert (B : 2 ^ 52 <= inject_Z m2).
  { rewrite two_52, <- Zle_Qle. exact H2. }
  pose proof (pow2_pos 52) as P52.
  apply (Qle_trans _ (2 * 2 ^ 52 * 2 ^ e1)); [nra |].
  apply (Qle_trans _ (2 ^ 52 * 2 ^ e2)); nra.
Qed.

(** Rounding to the nearest double preserves order. *)
Lemma binary64_monotone : monotone binary64.
Proof.
  intros a b H.
  destruct (Z.eq_dec (Qnum a) 0) as [Za | Na].
  { pose proof (proj1 (Qnum_sign a) Za) as E0.
    rewrite (binary64_zero a Za). apply binary64_sign. lra. }
  destruct (Z.eq_dec (Qnum b) 0) as [Zb | Nb].
  { pose proof (proj1 (Qnum_sign b) Zb) as E0.
    rewrite (binary64_zero b Zb). apply binary64_sign. lra. }
  destruct (proj2 (Qnum_sign a) Na) as [Sa | Sa];
    destruct (proj2 (Qnum_sign b) Nb) as [Sb | Sb]; try lra.
  - (* both positive *)
    assert (Hl : (ilog2 a <= ilog2 b)%Z).
    { apply ilog2_mono; try assumption.
      rewrite !Qabs_pos by lra. exact H. }
    rewrite (binary64_unfold a Na), (binary64_unfold b Nb).
    destruct (significand_range a Na) as [Ma _].
    destruct (significand_range b Nb) as [Mb _].
    destruct (Z.eq_dec (ilog2 a) (ilog2 b)) as [E | N].
    + rewrite E. pose proof (pow2_pos (ilog2 b - 52)) as Pe.
      pose proof (pow2_pos (- (ilog2 b - 52))) as Pm.
      assert (R : (Py.round (a * 2 ^ (- (ilog2 b - 52))) <=
                   Py.round (b * 2 ^ (- (ilog2 b - 52))))%Z)
        by (apply round_mono; nra).
      rewrite Zle_Qle in R. nra.
    + apply binade_gap; [lia | apply (Ma Sa) | apply (Mb Sb)].
  - (* a negative, b positive *)
    apply (Qle_trans _ 0); apply binary64_sign; lra.
  - (* both negative *)
    assert (Hl : (ilog2 b <= ilog2 a)%Z).
    { apply ilog2_mono; try assumption.
      rewrite !Qabs_neg by lra. lra. }
    rewrite (binary64_unfold a Na), (binary64_unfold b Nb).
    destruct (significand_range a Na) as [_ Ma].
    destruct (significand_range b Nb) as [_ Mb].
    destruct (Z.eq_dec (ilog2 a) (ilog2 b)) as [E | N].
    + rewrite E. pose proof (pow2_pos (ilog2 b - 52)) as Pe.
      pose proof (pow2_pos (- (ilog2 b - 52))) as Pm.
      assert (R : (Py.round (a * 2 ^ (- (ilog2 b - 52))) <=
                   Py.round (b * 2 ^ (- (ilog2 b - 52))))%Z)
        by (apply round_mono; nra).
      rewrite Zle_Qle in R. nra.
    + pose proof (binade_gap (ilog2 b - 52) (ilog2 a - 52)
                    (- Py.round (b * 2 ^ (- (ilog2 b - 52))))
                    (- Py.round (a * 2 ^ (- (ilog2 a - 52))))) as G.
      rewrite !inject_Z_opp in G.
      assert (G' := G ltac:(lia) ltac:(pose proof (Mb Sb); lia)
                      ltac:(pose proof (Ma Sa); lia)).
      lra.
Qed.

(** The bound of the claim also fails on a full window, by rounding: with
    double rounding, ten samples of the double nearest 0.3 are smoothed
    to 0.29999999999999993, below the value itself. *)
Lemma rounded_mean_below_minimum :
  let c := binary64 (3 # 10) in
  let samples := repeat (c, 0) 10 in
  c == 5404319552844595 # 18014398509481984 /\
  x_value_fl binary64 (observe_all init (map sample_of samples)) ==
  2702159776422297 # 9007199254740992 /\
  x_value_fl binary64 (observe_all init (map sample_of samples)) < c.
Proof.
  cbv zeta. repeat split; vm_compute; reflexivity.
Qed.

(** C4, amended.  Write S(c) for the smoothed value of a window of ten
    copies of c.  After any non-empty sequence of two-channel samples fed
    to a fresh controller, and for any rounding of the float operations
    that preserves order, the smoothed value lies between S(m) and S(M),
    where m and M are the minimum and maximum of the last min(10, count)
    observed values once ten or more were observed, and min(0, minimum)
    and max(0, maximum) before that, while the window still holds initial
    zeros.  Without rounding S(c) = c, which gives the interval [m, M]
    itself. *)
Theorem smoothed_between_constant_windows (rnd : Q -> Q)
  (samples : list (Q * Q)) :
  monotone rnd ->
  samples <> [] ->
  let xs := map fst samples in
  let smoothed := x_value_fl rnd (observe_all init (map sample_of samples)) in
  let recent := lastn (Nat.min emg_buffer_size (length xs)) xs in
  let S := fun c : Q => np_mean_fl rnd (repeat c emg_buffer_size) in
  ((emg_buffer_size <= length xs)%nat ->
     S (Qlist_min recent) <= smoothed <= S (Qlist_max recent)) /\
  (S (Qmin 0 (Qlist_min recent)) <= smoothed <= S (Qmax 0 (Qlist_max recent)))
  /\
  ((forall q, rnd q == q) ->
     (forall c, S c == c) /\
     smoothed == x_value (observe_all init (map sample_of samples))).
Proof.
  intros Hm Hne xs smoothed recent S.
  destruct (window_of_observed samples) as (L & Hpad & Hfull).
  fold xs in Hpad, Hfull. fold recent in Hpad, Hfull.
  unfold smoothed, x_value_fl, S.
  split; [| split].
  - intros Hten. apply np_mean_fl_between; [exact Hm | exact L |].
    now apply Hfull.
  - apply np_mean_fl_between; [exact Hm | exact L | exact Hpad].
  - intros Hex. split.
    + intros c. rewrite (np_mean_fl_exact rnd _ Hex).
      apply np_mean_constant. unfold emg_buffer_size. lia.
    + rewrite (np_mean_fl_exact rnd _ Hex). reflexivity.
Qed.

(** With double rounding: twelve samples of the double nearest 0.3; the
    window is full, and the three values S(m), smoothed, S(M) coincide at
    0.29999999999999993.  Without rounding: S(c) = c. *)
Lemma smoothed_between_constant_windows_witness :
  let samples := repeat (binary64 (3 # 10), 0) 12 in
  let xs := map fst samples in
  let smoothed :=
    x_value_fl binary64 (observe_all init (map sample_of samples)) in
  let recent := lastn (Nat.min emg_buffer_size (length xs)) xs in
  let S := fun c : Q => np_mean_fl binary64 (repeat c emg_buffer_size) in
  (S (Qlist_min recent) <= smoothed <= S (Qlist_max recent)) /\
  (S (Qmin 0 (Qlist_min recent)) <= smoothed <= S (Qmax 0 (Qlist_max recent)))
  /\
  (forall c, np_mean_fl (fun q => q) (repeat c emg_buffer_size) == c).
Proof.
  cbv zeta.
  destruct (smoothed_between_constant_windows binary64
              (repeat (binary64 (3 # 10), 0) 12) binary64_monotone)
    as (Hfull & Hpad & _); [discriminate |].
  destruct (smoothed_between_constant_windows (fun q => q)
              (repeat (3 # 10, 0) 12)) as (_ & _ & Hex).
  - intros a b Hab. exact Hab.
  - discriminate.
  - split; [apply Hfull; unfold emg_buffer_size; simpl; lia |].
    split; [exact Hpad |].
    apply Hex. intros q. reflexivity.
Defined.

(** ** What the processing functions leave untouched *)

Lemma push_row_fields (self : TelloEMGControl) (row : option (Q * Q)) :
  let self' := fst (push_row self row) in
  is_flying self' = is_flying self /\ speed self' = speed self /\
  stream_type self' = stream_type self /\ running self' = running self.
Proof.
  unfold push_row. destruct row as [r |]; [| now simpl].
  destruct (set_last (np_roll (emg_buffer self)) r); now simpl.
Qed.

Lemma process_joystick_fields (self : TelloEMGControl) (data : list Q) :
  let self' := fst (process_joystick self data) in
  is_flying self' = is_flying self /\ speed self' = speed self /\
  stream_type self' = stream_type self /\ running self' = running self.
Proof.
  unfold process_joystick.
  pose proof (push_row_fields self (row_of_list data)) as H.
  destruct (push_row self (row_of_list data)) as [self' ok].
  destruct ok; exact H.
Qed.

Lemma process_raw_emg_fields (self : TelloEMGControl) (data : EmgData) :
  let self' := fst (process_raw_emg self data) in
  is_flying self' = is_flying self /\ speed self' = speed self /\
  stream_type self' = stream_type self /\ running self' = running self.
Proof.
  unfold process_raw_emg.
  set (row := option_map (fun value => (0, value)) (first_channel data)).
  pose proof (push_row_fields self row) as H.
  destruct (push_row self row) as [self' ok].
  destruct ok; exact H.
Qed.

(** The tail of an iteration keeps the flag and sends, at most, one
    [send_rc_control]; with the flag down it sends nothing. *)
Lemma actuate_or_stop_flying (r : TelloEMGControl * option (Command * Q)) :
  is_flying (fst (actuate_or_stop r)) = is_flying (fst r) /\
  Forall (fun c => is_rc c = true) (snd (actuate_or_stop r)) /\
  (is_flying (fst r) = false -> snd (actuate_or_stop r) = []).
Proof.
  destruct r as [self' [[command intensity] |]]; simpl.
  - unfold emg_actuation. destruct (is_flying self').
    + destruct command; repeat split; try (repeat constructor); discriminate.
    + repeat split; constructor.
  - repeat split; constructor.
Qed.

Lemma lsl_iteration_flying (self : TelloEMGControl)
  (pulled : option (list Q)) :
  is_flying (fst (lsl_iteration self pulled)) = is_flying self /\
  Forall (fun c => is_rc c = true) (snd (lsl_iteration self pulled)) /\
  (is_flying self = false -> snd (lsl_iteration self pulled) = []).
Proof.
  unfold lsl_iteration.
  destruct pulled as [[| v sample] |]; try (simpl; repeat split; constructor).
  destruct (StreamType_eqb (stream_type self) EMGJoystick
            || Nat.eqb (length (v :: sample)) 2).
  - pose proof (actuate_or_stop_flying (process_joystick self (v :: sample)))
      as H.
    destruct (process_joystick_fields self (v :: sample)) as [E _].
    rewrite E in H. exact H.
  - pose proof (actuate_or_stop_flying
                  (process_raw_emg self (Sequence (v :: sample)))) as H.
    destruct (process_raw_emg_fields self (Sequence (v :: sample))) as [E _].
    rewrite E in H. exact H.
Qed.

Lemma simulation_iteration_flying (self : TelloEMGControl) (xy : Q * Q) :
  is_flying (fst (simulation_iteration self xy)) = is_flying self /\
  Forall (fun c => is_rc c = true) (snd (simulation_iteration self xy)) /\
  (is_flying self = false -> snd (simulation_iteration self xy) = []).
Proof.
  unfold simulation_iteration.
  pose proof (actuate_or_stop_flying
                (process_joystick self [fst xy; snd xy])) as H.
  destruct (process_joystick_fields self [fst xy; snd xy]) as [E _].
  rewrite E in H. exact H.
Qed.

(** A loop whose body keeps the flag keeps it over any number of
    iterations, and sends what its bodies send. *)
Lemma while_running_flying {A : Type}
  (body : TelloEMGControl -> A -> Outcome) :
  (forall self i,
     is_flying (fst (body self i)) = is_flying self /\
     Forall (fun c => is_rc c = true) (snd (body self i)) /\
     (is_flying self = false -> snd (body self i) = [])) ->
  forall inputs self,
    is_flying (fst (while_running body self inputs)) = is_flying self /\
    Forall (fun c => is_rc c = true) (snd (while_running body self inputs)) /\
    (is_flying self = false -> snd (while_running body self inputs) = []).
Proof.
  intros Hbody. induction inputs as [| i rest IH]; intros self.
  - simpl. repeat split; constructor.
  - simpl. destruct (running self); [| simpl; repeat split; constructor].
    destruct (Hbody self i) as (Hf & Hrc & Hg).
    destruct (body self i) as [self1 sent1]. simpl in Hf, Hrc, Hg.
    destruct (IH self1) as (Hf' & Hrc' & Hg').
    destruct (while_running body self1 rest) as [self2 sent2].
    simpl in *. split; [congruence |]. split.
    + apply Forall_app. now split.
    + intros G. rewrite Hg by exact G.
      rewrite Hg' by congruence. reflexivity.
Qed.

Lemma emg_control_loop_flying (self : TelloEMGControl) (src : SampleSource) :
  is_flying (fst (emg_control_loop self src)) = is_flying self /\
  Forall (fun c => is_rc c = true) (snd (emg_control_loop self src)) /\
  (is_flying self = false -> snd (emg_control_loop self src) = []).
Proof.
  destruct src as [pulls | samples]; simpl.
  - apply while_running_flying. exact lsl_iteration_flying.
  - apply while_running_flying. exact simulation_iteration_flying.
Qed.

(** ** Grounded dispatch (C1) *)

(** The claim as worded fails: on the ground the loop sends nothing, not
    the zero vector.  A fresh controller is grounded; the sample
    [1.0, 0.0] (and a direct dispatch of Forward at full intensity) leaves
    the list of drone calls empty. *)
Lemma grounded_zero_vector_counterexample :
  is_flying init = false /\
  snd (lsl_iteration init (Some [1; 0])) = [] /\
  snd (lsl_iteration init (Some [1; 0])) <> [send_rc_control 0 0 0 0] /\
  emg_actuation init forward 1 <> [send_rc_control 0 0 0 0].
Proof.
  repeat split; try reflexivity; vm_compute; discriminate.
Qed.

(** C1, amended.  While [is_flying] is false the dispatch step makes no
    call on the drone at all, whatever the classified command and
    intensity: neither one iteration of either loop nor a whole run of
    [emg_control_loop] sends anything. *)
Theorem grounded_emg_sends_nothing (self : TelloEMGControl) :
  is_flying self = false ->
  (forall command intensity, emg_actuation self command intensity = []) /\
  (forall pulled, snd (lsl_iteration self pulled) = []) /\
  (forall xy, snd (simulation_iteration self xy) = []) /\
  (forall src, snd (emg_control_loop self src) = []).
Proof.
  intros G. repeat split.
  - intros command intensity. unfold emg_actuation. now rewrite G.
  - intros pulled. now apply lsl_iteration_flying.
  - intros xy. now apply simulation_iteration_flying.
  - intros src. now apply emg_control_loop_flying.
Qed.

Lemma grounded_emg_sends_nothing_witness :
  is_flying init = false /\
  emg_actuation init backward (1 # 2) = [] /\
  snd (emg_control_loop init (Inlet [Some [- (1 # 2); 0]; None; Some [700]]))
  = [].
Proof.
  split; [reflexivity |].
  destruct (grounded_emg_sends_nothing init) as (Ha & _ & _ & Hloop);
    [reflexivity |].
  split; [apply Ha | apply Hloop].
Defined.

(** ** Pitch scaling (C5) *)

(** The claim as worded fails: the code truncates, it does not round.
    Airborne at speed 30, Forward with intensity 9/16 gives
    30 * 9/16 = 16.875; the pitch sent is 16, the rounded value is 17. *)
Lemma pitch_not_rounded_counterexample :
  let self := set_is_flying init true in
  let intensity := 9 # 16 in
  is_flying self = true /\ 0 <= intensity <= 1 /\
  emg_actuation self forward intensity = [send_rc_control 0 16 0 0] /\
  Py.round (inject_Z (speed self) * intensity) = 17%Z /\
  emg_actuation self forward intensity <>
  [send_rc_control 0 (Py.round (inject_Z (speed self) * intensity)) 0 0].
Proof.
  repeat split; try reflexivity; vm_compute; discriminate.
Qed.

Lemma int_is_floor (q : Q) : 0 <= q -> Py.int q = Qfloor q.
Proof.
  intros H. destruct q as [n d]. unfold Py.int, Qfloor. simpl.
  apply Z.quot_div_nonneg; [| lia].
  unfold Qle in H. simpl in H. lia.
Qed.

(** C5, amended.  Airborne, with a non-negative configured speed and an
    intensity in [0, 1], the loop sends exactly one command whose roll,
    up/down and yaw are 0 and whose pitch is the integer part p of
    speed * intensity (truncation, p <= speed * intensity < p + 1, not
    rounding): +p for Forward, -p for Backward, 0 for Hover. *)
Theorem airborne_pitch_is_truncated (self : TelloEMGControl)
  (command : Command) (intensity : Q) :
  is_flying self = true ->
  (0 <= speed self)%Z ->
  0 <= intensity <= 1 ->
  exists p : Z,
    inject_Z p <= inject_Z (speed self) * intensity < inject_Z p + 1 /\
    (0 <= p <= speed self)%Z /\
    emg_actuation self command intensity =
    match command with
    | forward => [send_rc_control 0 p 0 0]
    | backward => [send_rc_control 0 (- p) 0 0]
    | hover => [send_rc_control 0 0 0 0]
    end.
Proof.
  intros F Hs [Hi0 Hi1].
  set (q := inject_Z (speed self) * intensity).
  assert (Hs' : 0 <= inject_Z (speed self))
    by (change 0 with (inject_Z 0); now rewrite <- Zle_Qle).
  assert (Hq0 : 0 <= q) by (unfold q; nra).
  assert (Hq1 : q <= inject_Z (speed self)) by (unfold q; nra).
  exists (Qfloor q). repeat split.
  - apply Qfloor_le.
  - pose proof (Qlt_floor q) as H. rewrite inject_Z_plus in H. exact H.
  - change 0%Z with (Qfloor 0). now apply Qfloor_resp_le.
  - rewrite <- (Qfloor_Z (speed self)). now apply Qfloor_resp_le.
  - unfold emg_actuation. rewrite F. fold q.
    rewrite (int_is_floor q Hq0). reflexivity.
Qed.

(** Backward at intensity 1/2 and speed 30: pitch -15. *)
Lemma airborne_pitch_is_truncated_witness :
  exists p : Z,
    inject_Z p <= inject_Z 30 * (1 # 2) < inject_Z p + 1 /\
    (0 <= p <= 30)%Z /\
    emg_actuation (set_is_flying init true) backward (1 # 2) =
    [send_rc_control 0 (- p) 0 0].
Proof.
  apply (airborne_pitch_is_truncated (set_is_flying init true) backward
           (1 # 2)).
  - reflexivity.
  - simpl. lia.
  - split; unfold Qle; simpl; lia.
Defined.

(** ** The keyboard frame and the flight flag *)

Ltac bool_cases :=
  repeat match goal with
  | b : bool |- _ => destruct b
  end.

(** A frame that raises the flag had [t] held and called [takeoff]; a
    frame that changes the flag at all had [t] or [l] held. *)
Lemma keyboard_frame_flag (f : Frame) (c : Ctl) :
  let r := keyboard_frame f c in
  (is_flying (fst (fst r)) <> is_flying (fst c) ->
     K_t (keys f) = true \/ K_l (keys f) = true) /\
  (is_flying (fst c) = false -> is_flying (fst (fst r)) = true ->
     K_t (keys f) = true /\ In takeoff (snd r)).
Proof.
  destruct c as [[buf fl sp st rn] [cw ccw]].
  destruct f as [evs [kt kl kr ks kq]].
  unfold keyboard_frame, seq, handle_events, handle_takeoff_land,
    handle_rotate_clockwise, handle_rotate_counterclockwise, handle_quit,
    land_if_flying, set_running, set_is_flying.
  cbn [events keys].
  destruct (existsb is_QUIT evs); bool_cases; cbn;
    split; intros; try congruence; auto; tauto.
Qed.

(** ** The flight flag under the EMG loop (C2) *)

Lemma emg_step_keeps_flag (c : Ctl) (s : Step) :
  is_emg_step s = true ->
  is_flying (fst (fst (system_step c s))) = is_flying (fst c) /\
  Forall (fun d => is_rc d = true) (snd (system_step c s)).
Proof.
  intros E. unfold system_step.
  destruct (running (fst c)); [| simpl; split; [reflexivity | constructor]].
  destruct s as [pulled | xy | f]; [| | discriminate]; unfold lift_emg; simpl.
  - destruct (lsl_iteration_flying (fst c) pulled) as (H1 & H2 & _).
    now split.
  - destruct (simulation_iteration_flying (fst c) xy) as (H1 & H2 & _).
    now split.
Qed.

Lemma emg_steps_keep_flag (steps : list Step) :
  forall c : Ctl,
    forallb is_emg_step steps = true ->
    is_flying (fst (fst (system_run c steps))) = is_flying (fst c) /\
    Forall (fun d => is_rc d = true) (snd (system_run c steps)).
Proof.
  induction steps as [| s rest IH]; intros c E.
  - simpl. split; [reflexivity | constructor].
  - simpl in E. apply andb_true_iff in E. destruct E as [Es Er].
    simpl. destruct (emg_step_keeps_flag c s Es) as [H1 H2].
    destruct (system_step c s) as [c1 sent1].
    destruct (IH c1 Er) as [H3 H4].
    destruct (system_run c1 rest) as [c2 sent2]. simpl in *.
    split; [congruence | apply Forall_app; now split].
Qed.

(** C2.  [emg_control_loop] never changes [is_flying], whatever the
    samples, and only ever calls [send_rc_control]; in the program of both
    threads, steps of the EMG thread leave the flag as it is, a step that
    changes the flag is a keyboard frame with [t] or [l] held, and a step
    that takes the flag from false to true is a keyboard frame with [t]
    held that called [takeoff]. *)
Theorem flight_state_changed_only_by_keyboard :
  (forall self src,
     is_flying (fst (emg_control_loop self src)) = is_flying self /\
     Forall (fun d => is_rc d = true) (snd (emg_control_loop self src))) /\
  (forall c steps,
     forallb is_emg_step steps = true ->
     is_flying (fst (fst (system_run c steps))) = is_flying (fst c)) /\
  (forall c s,
     is_flying (fst (fst (system_step c s))) <> is_flying (fst c) ->
     exists f, s = KeyboardFrame f /\
               (K_t (keys f) = true \/ K_l (keys f) = true)) /\
  (forall c s,
     is_flying (fst c) = false ->
     is_flying (fst (fst (system_step c s))) = true ->
     exists f, s = KeyboardFrame f /\ K_t (keys f) = true /\
               In takeoff (snd (system_step c s))).
Proof.
  split; [| split; [| split]].
  - intros self src.
    destruct (emg_control_loop_flying self src) as (H1 & H2 & _). now split.
  - intros c steps E. now apply emg_steps_keep_flag.
  - intros c s Hch. destruct s as [pulled | xy | f].
    + exfalso. apply Hch. now apply emg_step_keeps_flag.
    + exfalso. apply Hch. now apply emg_step_keeps_flag.
    + exists f. split; [reflexivity |].
      unfold system_step in Hch.
      destruct (running (fst c)); [| now elim Hch].
      now apply (keyboard_frame_flag f c).
  - intros c s G A. destruct s as [pulled | xy | f].
    + exfalso.
      destruct (emg_step_keeps_flag c (EmgPull pulled) eq_refl) as [H _].
      congruence.
    + exfalso.
      destruct (emg_step_keeps_flag c (EmgGenerated xy) eq_refl) as [H _].
      congruence.
    + exists f. split; [reflexivity |].
      unfold system_step in *.
      destruct (running (fst c)); [| simpl in A; congruence].
      now apply (keyboard_frame_flag f c).
Qed.

(** A grounded controller fed three strong samples stays grounded; the
    frame with [t] held is the step that takes it off. *)
Lemma flight_state_changed_only_by_keyboard_witness :
  is_flying
    (fst (fst (system_run (init, mkRotation false false)
                 [EmgPull (Some [1; 0]); EmgPull (Some [1; 0]);
                  EmgGenerated (1, 0)]))) = false /\
  exists f,
    KeyboardFrame (mkFrame [] (mkKeys true false false false false)) =
    KeyboardFrame f /\ K_t (keys f) = true /\
    In takeoff
      (snd (system_step (init, mkRotation false false)
              (KeyboardFrame
                 (mkFrame [] (mkKeys true false false false false))))).
Proof.
  destruct flight_state_changed_only_by_keyboard as (_ & Hrun & _ & Hup).
  split.
  - apply (Hrun (init, mkRotation false false)). reflexivity.
  - apply (Hup (init, mkRotation false false)); reflexivity.
Defined.

(** ** The raw-EMG path (C10) *)

(** C10.  On a buffer that has rows (it always has ten),
    [process_raw_emg] returns normally on a bare scalar [v] and on every
    non-empty sequence whose element 0 is [v], with one and the same
    result.  The older rows move up and the new last row is [0, v]: the
    value lands in column 1.  With n the mean of column 1 of the updated
    buffer divided by 500, the answer is Forward with intensity
    min(n, 1) when n > 0.2, Backward with intensity min(|n|, 1) when
    n < -0.2, and Hover with intensity 0 otherwise. *)
Theorem process_raw_emg_shapes (self : TelloEMGControl) (v : Q)
  (others : list Q) :
  emg_buffer self <> [] ->
  let updated := tl (emg_buffer self) ++ [(0, v)] in
  let n := np_mean (column1 updated) / 500 in
  last updated (0, 0) = (0, v) /\
  exists command intensity,
    process_raw_emg self (Scalar v) =
    (set_emg_buffer self updated, Some (command, intensity)) /\
    process_raw_emg self (Sequence (v :: others)) =
    (set_emg_buffer self updated, Some (command, intensity)) /\
    (2 # 10 < n -> command = forward /\ intensity == Py.min n 1) /\
    (n < - (2 # 10) ->
       command = backward /\ intensity == Py.min (Qabs n) 1) /\
    (- (2 # 10) <= n <= 2 # 10 -> command = hover /\ intensity == 0).
Proof.
  intros Hne updated n.
  destruct (emg_buffer self) as [| r0 rest] eqn:E; [congruence |].
  cbn [tl] in updated.
  split; [apply last_last |].
  exists (fst (classify_raw n)), (snd (classify_raw n)).
  rewrite <- surjective_pairing.
  split; [| split].
  - unfold process_raw_emg. cbn [first_channel option_map].
    now rewrite (push_row_nonempty self r0 rest (0, v) E).
  - unfold process_raw_emg. cbn [first_channel option_map].
    now rewrite (push_row_nonempty self r0 rest (0, v) E).
  - clearbody n. unfold classify_raw, Py.abs.
    split; [| split]; intros H; split_tests; cbn [fst snd];
      (split; [reflexivity || lra | reflexivity || lra]).
Qed.

(** The scalar 6000 and the sequence [6000, 7, 9] on a fresh controller:
    the mean of column 1 is 600, n = 1.2, Forward at the clamp. *)
Lemma process_raw_emg_shapes_witness :
  let updated := tl (emg_buffer init) ++ [(0, 6000)] in
  emg_buffer init <> [] /\
  last updated (0, 0) = (0, 6000) /\
  exists intensity,
    process_raw_emg init (Scalar 6000) =
    (set_emg_buffer init updated, Some (forward, intensity)) /\
    process_raw_emg init (Sequence [6000; 7; 9]) =
    (set_emg_buffer init updated, Some (forward, intensity)) /\
    intensity == 1.
Proof.
  split; [discriminate |].
  destruct (process_raw_emg_shapes init 6000 [7; 9])
    as (Hlast & command & intensity & Hs & Hq & Hf & _ & _);
    [discriminate |].
  split; [exact Hlast |].
  destruct Hf as [-> Hi]; [vm_compute; reflexivity |].
  exists intensity. split; [exact Hs |]. split; [exact Hq |].
  rewrite Hi. vm_compute. reflexivity.
Defined.

(** ** Scenario A (C9) *)

Ltac list_of_length l :=
  repeat (let x := fresh "x" in destruct l as [| x l]; [discriminate |]);
  try (destruct l; [| discriminate]).

(** C9.  Window size 10, threshold 0.2, speed 30, airborne.  Whatever the
    ten rows the buffer held before and whatever the second channel
    carries, once nine samples of axis value -0.5 were observed the tenth
    one gives the smoothed value -0.5, the classification
    (backward, 0.5), and the single command
    [send_rc_control(0, -15, 0, 0)], in the LSL loop and in the simulation
    loop alike. *)
Theorem scenario_ten_backward_samples (self : TelloEMGControl)
  (ys : list Q) (y10 : Q) :
  length (emg_buffer self) = emg_buffer_size ->
  length ys = 9%nat ->
  is_flying self = true ->
  speed self = 30%Z ->
  let sample := fun y : Q => [- (1 # 2); y] in
  let self9 := observe_all self (map sample ys) in
  let self10 := fst (process_joystick self9 (sample y10)) in
  x_value self10 == - (1 # 2) /\
  (exists intensity,
     snd (process_joystick self9 (sample y10)) = Some (backward, intensity) /\
     intensity == 1 # 2) /\
  lsl_iteration self9 (Some (sample y10)) =
  (self10, [send_rc_control 0 (-15) 0 0]) /\
  simulation_iteration self9 (- (1 # 2), y10) =
  (self10, [send_rc_control 0 (-15) 0 0]).
Proof.
  destruct self as [buf fl sp st rn]. cbn [emg_buffer is_flying speed].
  unfold emg_buffer_size. intros Lb Ly -> ->.
  list_of_length buf. list_of_length ys.
  cbv zeta. split; [| split; [| split]].
  - vm_compute. reflexivity.
  - eexists. split; [vm_compute; reflexivity | vm_compute; reflexivity].
  - destruct st; vm_compute; reflexivity.
  - vm_compute. reflexivity.
Qed.

(** From a fresh controller that has taken off, second channel 0. *)
Lemma scenario_ten_backward_samples_witness :
  let airborne := set_is_flying init true in
  let self9 := observe_all airborne (repeat [- (1 # 2); 0] 9) in
  let self10 := fst (process_joystick self9 [- (1 # 2); 0]) in
  x_value self10 == - (1 # 2) /\
  (exists intensity,
     snd (process_joystick self9 [- (1 # 2); 0]) = Some (backward, intensity) /\
     intensity == 1 # 2) /\
  lsl_iteration self9 (Some [- (1 # 2); 0]) =
  (self10, [send_rc_control 0 (-15) 0 0]) /\
  simulation_iteration self9 (- (1 # 2), 0) =
  (self10, [send_rc_control 0 (-15) 0 0]).
Proof.
  apply (scenario_ten_backward_samples (set_is_flying init true)
           (repeat 0 9) 0); reflexivity.
Defined.

(** ** Repeated takeoff and landing (C7) *)

(** C7.  Airborne, the takeoff key makes the takeoff/landing block a
    no-op (no call, same state) and the whole frame does exactly what it
    does with [t] not held; grounded, the same holds of the landing key.
    A frame in which only that key is held, no rotation pending, makes no
    call at all and leaves the state as it was. *)
Theorem repeated_takeoff_land_ignored (c : Ctl) (f : Frame) :
  (is_flying (fst c) = true -> K_t (keys f) = true ->
     handle_takeoff_land (release_l (keys f)) c = (c, []) /\
     keyboard_frame f c =
     keyboard_frame (mkFrame (events f) (release_t (keys f))) c) /\
  (is_flying (fst c) = false -> K_l (keys f) = true ->
     handle_takeoff_land (release_t (keys f)) c = (c, []) /\
     keyboard_frame f c =
     keyboard_frame (mkFrame (events f) (release_l (keys f))) c) /\
  (is_flying (fst c) = true -> snd c = mkRotation false false ->
     keyboard_frame frame_t c = (c, [])) /\
  (is_flying (fst c) = false -> snd c = mkRotation false false ->
     keyboard_frame frame_l c = (c, [])).
Proof.
  destruct c as [[buf fl sp st rn] [cw ccw]].
  destruct f as [evs [kt kl kr ks kq]].
  cbn [fst snd is_flying keys events K_t K_l].
  repeat split; intros; subst;
    try match goal with
    | H : mkRotation _ _ = mkRotation _ _ |- _ => inversion H; subst
    end;
    try reflexivity.
  all: unfold keyboard_frame, seq, handle_events; cbn [events keys];
    destruct (existsb is_QUIT evs); bool_cases; reflexivity.
Qed.

(** A drone that has taken off, with [t] held again; a grounded one with
    [l] held. *)
Lemma repeated_takeoff_land_ignored_witness :
  let grounded := (init, mkRotation false false) in
  let airborne := (set_is_flying init true, mkRotation false false) in
  keyboard_frame frame_t airborne = (airborne, []) /\
  keyboard_frame frame_l grounded = (grounded, []) /\
  handle_takeoff_land (release_l (keys frame_t)) airborne = (airborne, []) /\
  handle_takeoff_land (release_t (keys frame_l)) grounded = (grounded, []).
Proof.
  cbv zeta.
  pose proof (repeated_takeoff_land_ignored
                (set_is_flying init true, mkRotation false false) frame_t)
    as (Ha & _ & Hta & _).
  pose proof (repeated_takeoff_land_ignored
                (init, mkRotation false false) frame_l)
    as (_ & Hg & _ & Hlg).
  split; [apply Hta; reflexivity |].
  split; [apply Hlg; reflexivity |].
  split; [apply Ha; reflexivity | apply Hg; reflexivity].
Defined.

(** ** Quit while airborne (C6) *)

(** C6, on the code.  From a fresh controller: a frame with [t] held,
    then a frame with [q] held, that is the quit command while airborne.
    The quit branch lands without clearing [is_flying], and the [finally]
    block of [run] lands again before [end()]: [land] is called twice,
    where the claim has exactly one [land] followed by one [end]. *)
Example quit_while_airborne_lands_twice :
  snd (run_main init [frame_t; frame_q]) = [takeoff; land; land; end_] /\
  is_flying (fst (run_main init [frame_t; frame_q])) = true /\
  count_cmd is_land (snd (run_main init [frame_t; frame_q])) = 2%nat /\
  count_cmd is_end (snd (run_main init [frame_t; frame_q])) = 1%nat.
Proof. repeat split; reflexivity. Qed.

(** The same on every airborne state: whenever [q] is held in a frame
    reached airborne (no landing key, no window-close event in it), the
    run calls [land] twice and [end] once. *)
Lemma quit_frame_lands_twice (self : TelloEMGControl) (f : Frame)
  (more : list Frame) :
  is_flying self = true -> running self = true ->
  K_q (keys f) = true -> K_l (keys f) = false ->
  existsb is_QUIT (events f) = false ->
  count_cmd is_land (snd (run_main self (f :: more))) = 2%nat /\
  count_cmd is_end (snd (run_main self (f :: more))) = 1%nat.
Proof.
  destruct self as [buf fl sp st rn].
  destruct f as [evs [kt kl kr ks kq]].
  cbn [is_flying running keys events K_q K_l].
  intros -> -> -> -> Hev.
  unfold run_main, keyboard_control. cbn [keyboard_loop fst running].
  unfold keyboard_frame, seq, handle_events. cbn [events keys].
  rewrite Hev.
  destruct more as [| f' more']; destruct kt, kr, ks; split; reflexivity.
Qed.

(** ** Rotation (C8) *)

(** C8, on the code.  Takeoff, one frame with Shift+r held (the
    counter-clockwise command), then the keys released for two frames.
    The frame with Shift+r sends a clockwise yaw (+speed) before the
    counter-clockwise one (-speed), and the first frame after the release
    sends two yaw-0 commands, where the claim has yaw -speed alone and a
    single yaw 0. *)
Example shift_r_sends_both_yaws :
  snd (keyboard_control init
         [frame_t; frame_shift_r; frame_idle; frame_idle]) =
  [takeoff;
   send_rc_control 0 0 0 30; send_rc_control 0 0 0 (-30);
   send_rc_control 0 0 0 0; send_rc_control 0 0 0 0].
Proof. reflexivity. Qed.

(** Releasing only the shift key while [r] stays held: the frame sends
    yaw +speed and then yaw 0. *)
Example shift_released_r_held :
  snd (keyboard_control init [frame_t; frame_shift_r; frame_r]) =
  [takeoff;
   send_rc_control 0 0 0 30; send_rc_control 0 0 0 (-30);
   send_rc_control 0 0 0 30; send_rc_control 0 0 0 0].
Proof. reflexivity. Qed.

(** What does hold, for [r] alone: airborne, every frame with [r] held
    (shift up, no landing, no rotation pending the other way) sends yaw
    +speed once; the first frame after the release sends one yaw 0; an
    idle frame after that sends nothing. *)
Lemma clockwise_alone (self : TelloEMGControl) (cw : bool) :
  is_flying self = true ->
  keyboard_frame frame_r (self, mkRotation cw false) =
  ((self, mkRotation true false), [send_rc_control 0 0 0 (speed self)]) /\
  keyboard_frame frame_idle (self, mkRotation true false) =
  ((self, mkRotation false false), [send_rc_control 0 0 0 0]) /\
  keyboard_frame frame_idle (self, mkRotation false false) =
  ((self, mkRotation false false), []).
Proof.
  destruct self as [buf fl sp st rn]. cbn [is_flying]. intros ->.
  destruct cw; repeat split; reflexivity.
Qed.

(** * Further properties of the code *)

(** ** What the EMG loop keeps *)

Lemma np_roll_length (buf : list (Q * Q)) : length (np_roll buf) = length buf.
Proof.
  destruct buf as [| r rest]; [reflexivity |].
  simpl. rewrite length_app. simpl. lia.
Qed.

Lemma removelast_cons_length {A : Type} (l : list A) :
  forall a : A, length (removelast (a :: l)) = length l.
Proof.
  induction l as [| b l IH]; intros a; [reflexivity |].
  change (removelast (a :: b :: l)) with (a :: removelast (b :: l)).
  change (length (a :: removelast (b :: l)))
    with (S (length (removelast (b :: l)))).
  rewrite IH. reflexivity.
Qed.

Lemma set_last_length (buf : list (Q * Q)) (row : Q * Q) (b : list (Q * Q)) :
  set_last buf row = Some b -> length b = length buf.
Proof.
  destruct buf as [| r rest]; [discriminate |].
  unfold set_last. intros E.
  assert (Eb : b = removelast (r :: rest) ++ [row]) by congruence.
  rewrite Eb, length_app, (removelast_cons_length rest r). simpl. lia.
Qed.

Lemma push_row_settings (self : TelloEMGControl) (row : option (Q * Q)) :
  same_settings self (fst (push_row self row)).
Proof.
  unfold same_settings, push_row. destruct row as [r |].
  - destruct (set_last (np_roll (emg_buffer self)) r) as [b |] eqn:E; simpl.
    + repeat split. rewrite (set_last_length _ _ _ E). apply np_roll_length.
    + repeat split. apply np_roll_length.
  - simpl. repeat split. apply np_roll_length.
Qed.

Lemma same_settings_refl (a : TelloEMGControl) : same_settings a a.
Proof. now unfold same_settings. Qed.

Lemma same_settings_trans (a b c : TelloEMGControl) :
  same_settings a b -> same_settings b c -> same_settings a c.
Proof.
  unfold same_settings. intros (H1 & H2 & H3) (H4 & H5 & H6).
  repeat split; congruence.
Qed.

Lemma actuate_or_stop_settings (self : TelloEMGControl)
  (r : TelloEMGControl * option (Command * Q)) :
  same_settings self (fst r) -> same_settings self (fst (actuate_or_stop r)).
Proof.
  destruct r as [self' [[command intensity] |]]; simpl; auto.
Qed.

Lemma lsl_iteration_settings (self : TelloEMGControl)
  (pulled : option (list Q)) :
  same_settings self (fst (lsl_iteration self pulled)).
Proof.
  unfold lsl_iteration.
  destruct pulled as [[| v sample] |]; try apply same_settings_refl.
  destruct (StreamType_eqb (stream_type self) EMGJoystick
            || Nat.eqb (length (v :: sample)) 2);
    apply actuate_or_stop_settings.
  - unfold process_joystick.
    pose proof (push_row_settings self (row_of_list (v :: sample))) as H.
    destruct (push_row self (row_of_list (v :: sample))) as [s ok].
    now destruct ok.
  - unfold process_raw_emg.
    set (row := option_map (fun value => (0, value))
                  (first_channel (Sequence (v :: sample)))).
    pose proof (push_row_settings self row) as H.
    destruct (push_row self row) as [s ok]. now destruct ok.
Qed.

Lemma simulation_iteration_settings (self : TelloEMGControl) (xy : Q * Q) :
  same_settings self (fst (simulation_iteration self xy)).
Proof.
  unfold simulation_iteration. apply actuate_or_stop_settings.
  unfold process_joystick.
  pose proof (push_row_settings self (row_of_list [fst xy; snd xy])) as H.
  destruct (push_row self (row_of_list [fst xy; snd xy])) as [s ok].
  now destruct ok.
Qed.

Lemma while_running_settings {A : Type}
  (body : TelloEMGControl -> A -> Outcome) :
  (forall self i, same_settings self (fst (body self i))) ->
  forall inputs self,
    same_settings self (fst (while_running body self inputs)).
Proof.
  intros Hbody. induction inputs as [| i rest IH]; intros self.
  - apply same_settings_refl.
  - simpl. destruct (running self); [| apply same_settings_refl].
    pose proof (Hbody self i) as H1.
    destruct (body self i) as [self1 sent1].
    pose proof (IH self1) as H2.
    destruct (while_running body self1 rest) as [self2 sent2].
    simpl in *. now apply (same_settings_trans self self1 self2).
Qed.

(** X1.  Whatever the samples, malformed ones included, a run of
    [emg_control_loop] leaves the configured speed and the stream type as
    they were and keeps the number of buffer rows: the window never grows
    or shrinks, also on the path where the row assignment raises. *)
Theorem emg_control_loop_keeps_settings (self : TelloEMGControl)
  (src : SampleSource) :
  speed (fst (emg_control_loop self src)) = speed self /\
  stream_type (fst (emg_control_loop self src)) = stream_type self /\
  length (emg_buffer (fst (emg_control_loop self src))) =
  length (emg_buffer self).
Proof.
  destruct src as [pulls | samples]; simpl.
  - apply (while_running_settings lsl_iteration lsl_iteration_settings).
  - apply (while_running_settings simulation_iteration
             simulation_iteration_settings).
Qed.

(** ** Timeouts and exceptions in the LSL loop *)

Lemma while_running_stopped {A : Type}
  (body : TelloEMGControl -> A -> Outcome) (self : TelloEMGControl)
  (inputs : list A) :
  running self = false -> while_running body self inputs = (self, []).
Proof.
  intros R. destruct inputs; simpl; [reflexivity | now rewrite R].
Qed.

(** X2.  Timeouts and empty samples are transparent: the LSL loop ends in
    the same state and makes the same drone calls, in the same order, as
    on the pulls with those removed. *)
Theorem lsl_loop_skips_timeouts (pulls : list (option (list Q))) :
  forall self : TelloEMGControl,
    emg_control_loop self (Inlet pulls) =
    emg_control_loop self
      (Inlet (filter (fun p => negb (is_skipped p)) pulls)).
Proof.
  simpl. induction pulls as [| p rest IH]; intros self; [reflexivity |].
  destruct (is_skipped p) eqn:Sk.
  - cbn [filter]. rewrite Sk. cbn [negb]. rewrite <- IH.
    assert (E : lsl_iteration self p = (self, []))
      by (destruct p as [[| v l] |]; try discriminate; reflexivity).
    simpl. rewrite E.
    destruct (running self) eqn:R.
    + now destruct (while_running lsl_iteration self rest).
    + now rewrite while_running_stopped.
  - cbn [filter]. rewrite Sk. cbn [negb].
    simpl. destruct (running self); [| reflexivity].
    destruct (lsl_iteration self p) as [self1 sent1].
    now rewrite IH.
Qed.

(** X3.  On a stream typed [EMGJoystick], a sample of three or more
    values makes the row assignment raise: the handler clears [running],
    the buffer is left rolled by one row with nothing written, no drone
    call is made, and the pulls that follow are never processed. *)
Theorem wide_sample_stops_lsl_loop (self : TelloEMGControl)
  (sample : list Q) (rest : list (option (list Q))) :
  running self = true ->
  stream_type self = EMGJoystick ->
  (3 <= length sample)%nat ->
  emg_control_loop self (Inlet (Some sample :: rest)) =
  (set_running (set_emg_buffer self (np_roll (emg_buffer self))) false, []).
Proof.
  intros R T L.
  destruct sample as [| a [| b [| c more]]]; try (simpl in L; lia).
  simpl. rewrite R, T. simpl.
  now rewrite while_running_stopped.
Qed.

Lemma wide_sample_stops_lsl_loop_witness :
  let self := mkControl (np_zeros 10) true 30 EMGJoystick true in
  emg_control_loop self (Inlet [Some [1; 2; 3]; Some [1; 0]]) =
  (set_running (set_emg_buffer self (np_roll (emg_buffer self))) false, []).
Proof.
  apply (wide_sample_stops_lsl_loop
           (mkControl (np_zeros 10) true 30 EMGJoystick true)
           [1; 2; 3] [Some [1; 0]]).
  - reflexivity.
  - reflexivity.
  - simpl. lia.
Defined.

(** ** Streams with a fixed channel count *)

Lemma process_raw_emg_ok (self : TelloEMGControl) (r0 : Q * Q)
  (rest : list (Q * Q)) (v : Q) (more : list Q) :
  emg_buffer self = r0 :: rest ->
  process_raw_emg self (Sequence (v :: more)) =
  (set_emg_buffer self (rest ++ [(0, v)]),
   Some (classify_raw (normalized (set_emg_buffer self (rest ++ [(0, v)]))))).
Proof.
  intros E. unfold process_raw_emg. cbn [first_channel option_map].
  now rewrite (push_row_nonempty self r0 rest (0, v) E).
Qed.

(** One pull of an [n]-channel stream, on a controller typed as the
    detection types such a stream: no exception, the buffer keeps rows. *)
Lemma lsl_iteration_uniform (n : nat) (self : TelloEMGControl)
  (pulled : option (list Q)) :
  (1 <= n)%nat ->
  stream_type self = (if Nat.eqb n 2 then EMGJoystick else EMG) ->
  emg_buffer self <> [] ->
  has_channels n pulled ->
  running (fst (lsl_iteration self pulled)) = running self /\
  emg_buffer (fst (lsl_iteration self pulled)) <> [].
Proof.
  intros Hn T Hb Hc.
  destruct (emg_buffer self) as [| r0 rest] eqn:E; [congruence |].
  destruct pulled as [[| v more] |]; unfold has_channels in Hc;
    try (simpl; rewrite E; split; [reflexivity | discriminate]).
  unfold lsl_iteration. rewrite T, Hc.
  destruct (Nat.eqb n 2) eqn:N2.
  - apply Nat.eqb_eq in N2. subst n.
    destruct more as [| y [| z more]]; try discriminate.
    cbn [StreamType_eqb orb].
    change [v; y] with (sample_of (v, y)).
    rewrite (process_joystick_pair self r0 rest (v, y) E).
    destruct (classify_joystick _) as [command intensity].
    simpl. split; [reflexivity | destruct rest; discriminate].
  - cbn [StreamType_eqb orb].
    rewrite (process_raw_emg_ok self r0 rest v more E).
    destruct (classify_raw _) as [command intensity].
    simpl. split; [reflexivity | destruct rest; discriminate].
Qed.

(** X4.  A stream whose samples all have the channel count of the test
    sample that typed it never makes the LSL loop raise: with the stream
    type [connect_to_lsl_direct] derives from that first sample, the loop
    is still [running] after any number of pulls, timeouts included. *)
Theorem uniform_stream_never_stops (first : list Q)
  (pulls : list (option (list Q))) :
  forall self : TelloEMGControl,
    detect_stream_type (Some first) = Some (stream_type self) ->
    emg_buffer self <> [] ->
    running self = true ->
    Forall (has_channels (length first)) pulls ->
    running (fst (emg_control_loop self (Inlet pulls))) = true.
Proof.
  simpl. induction pulls as [| p rest IH]; intros self D Hb R Hall.
  - exact R.
  - inversion Hall as [| p' rest' Hp Hrest]; subst.
    assert (Hn : (1 <= length first)%nat)
      by (destruct first; [discriminate | simpl; lia]).
    assert (T : stream_type self =
                if Nat.eqb (length first) 2 then EMGJoystick else EMG)
      by (destruct first; [discriminate |];
          unfold detect_stream_type in D; now injection D).
    simpl. rewrite R.
    destruct (lsl_iteration_uniform (length first) self p Hn T Hb Hp)
      as [R1 B1].
    destruct (lsl_iteration_settings self p) as (_ & T1 & _).
    destruct (lsl_iteration self p) as [self1 sent1]. simpl in *.
    assert (D1 : detect_stream_type (Some first) = Some (stream_type self1))
      by (rewrite T1; exact D).
    assert (R1' : running self1 = true) by congruence.
    specialize (IH self1 D1 B1 R1' Hrest).
    now destruct (while_running lsl_iteration self1 rest).
Qed.

(** A four-channel stream on a fresh controller typed [EMG]. *)
Lemma uniform_stream_never_stops_witness :
  let self := mkControl (np_zeros 10) false 30 EMG true in
  running
    (fst (emg_control_loop self
            (Inlet [Some [700; 1; 2; 3]; None; Some [-900; 0; 0; 0]])))
  = true.
Proof.
  apply (uniform_stream_never_stops [1; 2; 3; 4]
           [Some [700; 1; 2; 3]; None; Some [-900; 0; 0; 0]]
           (mkControl (np_zeros 10) false 30 EMG true)).
  - reflexivity.
  - discriminate.
  - reflexivity.
  - repeat constructor.
Defined.

(** ** Bounds on what the EMG loop sends *)

Lemma classify_joystick_unit (x : Q) : 0 <= snd (classify_joystick x) <= 1.
Proof.
  rewrite classify_joystick_intensity. unfold Py.min.
  destruct (Qabs_cases x) as [[Hx Ha] | [Hx Ha]]; split_tests; lra.
Qed.

Lemma classify_raw_unit (x : Q) : 0 <= snd (classify_raw x) <= 1.
Proof.
  rewrite classify_raw_intensity. unfold Py.min.
  destruct (Qabs_cases x) as [[Hx Ha] | [Hx Ha]]; split_tests; lra.
Qed.

Lemma int_scaled_bounds (sp : Z) (i : Q) :
  (0 <= sp)%Z -> 0 <= i <= 1 ->
  (0 <= Py.int (inject_Z sp * i) <= sp)%Z.
Proof.
  intros Hs [Hi0 Hi1].
  assert (Hs' : 0 <= inject_Z sp)
    by (change 0 with (inject_Z 0); now rewrite <- Zle_Qle).
  assert (Hq0 : 0 <= inject_Z sp * i) by nra.
  assert (Hq1 : inject_Z sp * i <= inject_Z sp) by nra.
  rewrite (int_is_floor _ Hq0). split.
  - change 0%Z with (Qfloor 0). now apply Qfloor_resp_le.
  - rewrite <- (Qfloor_Z sp) at 2. now apply Qfloor_resp_le.
Qed.

Lemma emg_actuation_pitch_only (self : TelloEMGControl) (command : Command)
  (intensity : Q) :
  (0 <= speed self)%Z -> 0 <= intensity <= 1 ->
  Forall (fun c => is_pitch_only (speed self) c = true)
    (emg_actuation self command intensity).
Proof.
  intros Hs Hi. pose proof (int_scaled_bounds (speed self) intensity Hs Hi).
  unfold emg_actuation.
  destruct (is_flying self); [| constructor].
  destruct command; repeat constructor; simpl; apply Z.leb_le; lia.
Qed.

Lemma actuate_or_stop_pitch_only (r : TelloEMGControl * option (Command * Q)) :
  (0 <= speed (fst r))%Z ->
  (forall ci, snd r = Some ci -> 0 <= snd ci <= 1) ->
  Forall (fun c => is_pitch_only (speed (fst r)) c = true)
    (snd (actuate_or_stop r)).
Proof.
  destruct r as [self' [[command intensity] |]]; simpl; intros Hs Hi.
  - apply emg_actuation_pitch_only; [exact Hs |].
    now apply (Hi (command, intensity)).
  - constructor.
Qed.

Lemma process_joystick_unit (self : TelloEMGControl) (data : list Q)
  (ci : Command * Q) :
  snd (process_joystick self data) = Some ci -> 0 <= snd ci <= 1.
Proof.
  unfold process_joystick.
  destruct (push_row self (row_of_list data)) as [s ok].
  destruct ok; simpl; [| discriminate].
  intros [= <-]. apply classify_joystick_unit.
Qed.

Lemma process_raw_emg_unit (self : TelloEMGControl) (data : EmgData)
  (ci : Command * Q) :
  snd (process_raw_emg self data) = Some ci -> 0 <= snd ci <= 1.
Proof.
  unfold process_raw_emg.
  destruct (push_row self _) as [s ok].
  destruct ok; simpl; [| discriminate].
  intros [= <-]. apply classify_raw_unit.
Qed.

Lemma lsl_iteration_pitch_only (self : TelloEMGControl)
  (pulled : option (list Q)) :
  (0 <= speed self)%Z ->
  Forall (fun c => is_pitch_only (speed self) c = true)
    (snd (lsl_iteration self pulled)).
Proof.
  intros Hs. unfold lsl_iteration.
  destruct pulled as [[| v sample] |]; try constructor.
  destruct (StreamType_eqb (stream_type self) EMGJoystick
            || Nat.eqb (length (v :: sample)) 2).
  - destruct (process_joystick_fields self (v :: sample)) as (_ & E & _).
    rewrite <- E. apply actuate_or_stop_pitch_only.
    + now rewrite E.
    + apply process_joystick_unit.
  - destruct (process_raw_emg_fields self (Sequence (v :: sample)))
      as (_ & E & _).
    rewrite <- E. apply actuate_or_stop_pitch_only.
    + now rewrite E.
    + apply process_raw_emg_unit.
Qed.

Lemma simulation_iteration_pitch_only (self : TelloEMGControl) (xy : Q * Q) :
  (0 <= speed self)%Z ->
  Forall (fun c => is_pitch_only (speed self) c = true)
    (snd (simulation_iteration self xy)).
Proof.
  intros Hs. unfold simulation_iteration.
  destruct (process_joystick_fields self [fst xy; snd xy]) as (_ & E & _).
  rewrite <- E. apply actuate_or_stop_pitch_only.
  - now rewrite E.
  - apply process_joystick_unit.
Qed.

Lemma while_running_pitch_only {A : Type}
  (body : TelloEMGControl -> A -> Outcome) :
  (forall self i, same_settings self (fst (body self i))) ->
  (forall self i, (0 <= speed self)%Z ->
     Forall (fun c => is_pitch_only (speed self) c = true)
       (snd (body self i))) ->
  forall inputs self,
    (0 <= speed self)%Z ->
    Forall (fun c => is_pitch_only (speed self) c = true)
      (snd (while_running body self inputs)).
Proof.
  intros Hset Hbody. induction inputs as [| i rest IH]; intros self Hs.
  - constructor.
  - simpl. destruct (running self); [| constructor].
    pose proof (Hset self i) as (E & _).
    pose proof (Hbody self i Hs) as H1.
    destruct (body self i) as [self1 sent1]. simpl in E, H1.
    assert (Hs1 : (0 <= speed self1)%Z) by (rewrite E; exact Hs).
    pose proof (IH self1 Hs1) as H2. rewrite E in H2.
    destruct (while_running body self1 rest) as [self2 sent2].
    simpl in *. apply Forall_app. now split.
Qed.

Lemma emg_control_loop_pitch_only (self : TelloEMGControl)
  (src : SampleSource) :
  (0 <= speed self)%Z ->
  Forall (fun c => is_pitch_only (speed self) c = true)
    (snd (emg_control_loop self src)).
Proof.
  intros Hs. destruct src as [pulls | samples]; simpl.
  - apply (while_running_pitch_only lsl_iteration lsl_iteration_settings
             lsl_iteration_pitch_only); exact Hs.
  - apply (while_running_pitch_only simulation_iteration
             simulation_iteration_settings simulation_iteration_pitch_only);
      exact Hs.
Qed.

(** X5.  With a non-negative configured speed, every call a run of
    [emg_control_loop] makes is a [send_rc_control] whose roll, up/down
    and yaw are 0 and whose pitch lies in [-speed, speed]; with the
    default speed 30 the pitch stays within the drone's range. *)
Theorem emg_loop_commands_bounded (self : TelloEMGControl)
  (src : SampleSource) :
  (0 <= speed self)%Z ->
  Forall (fun c => is_pitch_only (speed self) c = true)
    (snd (emg_control_loop self src)).
Proof.
  intros Hs. destruct src as [pulls | samples]; simpl.
  - apply (while_running_pitch_only lsl_iteration lsl_iteration_settings
             lsl_iteration_pitch_only); exact Hs.
  - apply (while_running_pitch_only simulation_iteration
             simulation_iteration_settings simulation_iteration_pitch_only);
      exact Hs.
Qed.

Lemma emg_loop_commands_bounded_witness :
  Forall (fun c => is_pitch_only 30 c = true)
    (snd (emg_control_loop (set_is_flying init true)
            (Inlet [Some [5; 0]; Some [- (40); 0]; Some [9000]]))).
Proof.
  apply (emg_loop_commands_bounded (set_is_flying init true)
           (Inlet [Some [5; 0]; Some [- (40); 0]; Some [9000]])).
  simpl. lia.
Defined.

(** ** The two classifiers *)

(** X6.  The classifier of [process_joystick] and that of
    [process_raw_emg] test the thresholds in opposite order and take
    [min] of different expressions, yet agree on every input: the same
    command, and intensities equal as numbers. *)
Theorem classifiers_agree (x : Q) :
  fst (classify_raw x) = fst (classify_joystick x) /\
  snd (classify_raw x) == snd (classify_joystick x).
Proof.
  split.
  - unfold classify_raw, classify_joystick.
    split_tests; try reflexivity; lra.
  - rewrite classify_raw_intensity, classify_joystick_intensity.
    reflexivity.
Qed.

(** ** The smoothed value in closed form *)

Lemma Qsum_app (a b : list Q) : Qsum (a ++ b) == Qsum a + Qsum b.
Proof.
  induction a as [| x a IH].
  - change (Qsum []) with 0. simpl app. lra.
  - change (Qsum ((x :: a) ++ b)) with (x + Qsum (a ++ b)).
    change (Qsum (x :: a)) with (x + Qsum a). rewrite IH. lra.
Qed.

Lemma Qsum_zeros (l : list Q) : (forall v, In v l -> v = 0) -> Qsum l == 0.
Proof.
  intros H.
  assert (Hb : forall v, In v l -> 0 <= v <= 0)
    by (intros v Hv; rewrite (H v Hv); lra).
  pose proof (Qsum_bounds 0 0 l Hb). lra.
Qed.

(** X7.  On a fresh controller the smoothed value after any sequence of
    two-channel samples is the sum of the last ten observed axis values
    (of all of them while fewer than ten were observed) divided by ten:
    the initial zeros count in the divisor, not in the sum. *)
Theorem smoothed_closed_form (samples : list (Q * Q)) :
  x_value (observe_all init (map sample_of samples)) ==
  Qsum (lastn emg_buffer_size (map fst samples)) / 10.
Proof.
  unfold x_value, np_mean. rewrite column0_observed.
  set (xs := map fst samples).
  assert (L : length (lastn emg_buffer_size
                        (repeat 0 emg_buffer_size ++ xs)) = 10%nat).
  { unfold lastn. rewrite length_skipn, length_app, repeat_length.
    unfold emg_buffer_size. lia. }
  rewrite L. change (inject_Z (Z.of_nat 10)) with 10.
  apply Qdiv_comp; [| reflexivity].
  unfold lastn. rewrite length_app, repeat_length, skipn_app, Qsum_app.
  rewrite repeat_length.
  replace (emg_buffer_size + length xs - emg_buffer_size - emg_buffer_size)%nat
    with (length xs - emg_buffer_size)%nat by lia.
  rewrite Qsum_zeros; [lra |].
  intros v Hv. apply In_skipn_In in Hv. now apply repeat_spec in Hv.
Qed.

(** ** The raw-EMG thresholds in raw units *)

Lemma classify_raw_scaled (avg q w : Q) :
  q == avg * (1 # 500) ->
  w == Qabs avg * (1 # 500) ->
  (fst (classify_raw q) = forward <-> 100 < avg) /\
  (fst (classify_raw q) = backward <-> avg < - (100)) /\
  (fst (classify_raw q) = hover <-> - (100) <= avg <= 100) /\
  (fst (classify_raw q) <> hover -> snd (classify_raw q) == Py.min w 1) /\
  (500 <= Qabs avg -> snd (classify_raw q) == 1).
Proof.
  intros Hq Hw.
  assert (Haq : Qabs q == Qabs avg * (1 # 500)).
  { rewrite Hq, Qabs_Qmult. reflexivity. }
  destruct (Qabs_cases avg) as [[Hx Ha] | [Hx Ha]];
    unfold classify_raw, Py.abs, Py.min; split_tests; cbn [fst snd];
    (split; [| split; [| split; [| split]]]);
    try (split; intros; try discriminate; try reflexivity; lra);
    try (intros; try congruence; lra).
Qed.

(** X8.  [process_raw_emg], on a buffer with rows, answers by the mean
    [avg] of column 1 after the update: Forward exactly when avg > 100,
    Backward exactly when avg < -100, Hover in between; the intensity of
    a movement is min(|avg| / 500, 1), so it saturates at 1 from
    |avg| = 500 on. *)
Theorem process_raw_emg_thresholds (self : TelloEMGControl) (v : Q) :
  emg_buffer self <> [] ->
  let avg :=
    np_mean (column1 (emg_buffer (fst (process_raw_emg self (Scalar v))))) in
  exists command intensity,
    snd (process_raw_emg self (Scalar v)) = Some (command, intensity) /\
    (command = forward <-> 100 < avg) /\
    (command = backward <-> avg < - (100)) /\
    (command = hover <-> - (100) <= avg <= 100) /\
    (command <> hover -> intensity == Py.min (Qabs avg / 500) 1) /\
    (500 <= Qabs avg -> intensity == 1).
Proof.
  intros Hne.
  destruct (emg_buffer self) as [| r0 rest] eqn:E; [congruence |].
  unfold process_raw_emg. cbn [first_channel option_map].
  rewrite (push_row_nonempty self r0 rest (0, v) E). cbn [fst snd].
  unfold normalized. cbn [emg_buffer set_emg_buffer].
  set (avg := np_mean (column1 (rest ++ [(0, v)]))).
  exists (fst (classify_raw (avg / 500))), (snd (classify_raw (avg / 500))).
  split; [now rewrite <- surjective_pairing |].
  apply classify_raw_scaled; unfold Qdiv; reflexivity.
Qed.

(** A fresh controller and the raw amplitude 6000: the mean is 600. *)
Lemma process_raw_emg_thresholds_witness :
  let avg := np_mean (column1 (emg_buffer
                                 (fst (process_raw_emg init (Scalar 6000))))) in
  exists command intensity,
    snd (process_raw_emg init (Scalar 6000)) = Some (command, intensity) /\
    (command = forward <-> 100 < avg) /\
    (command = backward <-> avg < - (100)) /\
    (command = hover <-> - (100) <= avg <= 100) /\
    (command <> hover -> intensity == Py.min (Qabs avg / 500) 1) /\
    (500 <= Qabs avg -> intensity == 1).
Proof.
  apply (process_raw_emg_thresholds init 6000). discriminate.
Defined.

(** ** The keyboard loop: quitting and cleanup *)

Ltac frame_cases evs :=
  unfold keyboard_frame, seq, handle_events, handle_takeoff_land,
    handle_rotate_clockwise, handle_rotate_counterclockwise, handle_quit,
    land_if_flying, set_running, set_is_flying;
  cbn [events keys];
  destruct (existsb is_QUIT evs); bool_cases.

Lemma keyboard_frame_quit (f : Frame) (c : Ctl) :
  asks_quit f = true -> running (fst (fst (keyboard_frame f c))) = false.
Proof.
  destruct c as [[buf fl sp st rn] [cw ccw]].
  destruct f as [evs [kt kl kr ks kq]].
  unfold asks_quit. cbn [events keys K_q]. intros Q.
  frame_cases evs; try discriminate; reflexivity.
Qed.

Lemma keyboard_loop_stopped (c : Ctl) (frames : list Frame) :
  running (fst c) = false -> keyboard_loop c frames = (c, []).
Proof.
  intros R. destruct frames; simpl; [reflexivity | now rewrite R].
Qed.

(** X11.  A frame in which [q] is held or a window-close event is queued
    is the last one: the loop returns what that frame did, with [running]
    cleared, whatever frames would follow. *)
Theorem keyboard_loop_ends_at_quit (c : Ctl) (f : Frame)
  (more : list Frame) :
  running (fst c) = true ->
  asks_quit f = true ->
  keyboard_loop c (f :: more) = keyboard_frame f c /\
  running (fst (fst (keyboard_loop c (f :: more)))) = false.
Proof.
  intros R Q.
  assert (E : keyboard_loop c (f :: more) = keyboard_frame f c).
  { simpl. rewrite R.
    pose proof (keyboard_frame_quit f c Q) as R1.
    destruct (keyboard_frame f c) as [c1 sent1]. simpl in R1.
    rewrite (keyboard_loop_stopped c1 more R1). now rewrite app_nil_r. }
  split; [exact E |]. rewrite E. now apply keyboard_frame_quit.
Qed.

Lemma keyboard_loop_ends_at_quit_witness :
  let c := (init, mkRotation false false) in
  keyboard_loop c [mkFrame [OtherEvent; QUIT] no_keys; frame_t] =
  keyboard_frame (mkFrame [OtherEvent; QUIT] no_keys) c /\
  running
    (fst (fst (keyboard_loop c [mkFrame [OtherEvent; QUIT] no_keys; frame_t])))
  = false.
Proof.
  apply (keyboard_loop_ends_at_quit (init, mkRotation false false)
           (mkFrame [OtherEvent; QUIT] no_keys) [frame_t]); reflexivity.
Defined.

Lemma keyboard_frame_no_end (f : Frame) (c : Ctl) :
  Forall (fun d => is_end d = false) (snd (keyboard_frame f c)).
Proof.
  destruct c as [[buf fl sp st rn] [cw ccw]].
  destruct f as [evs [kt kl kr ks kq]].
  frame_cases evs; cbn; repeat constructor.
Qed.

Lemma keyboard_loop_no_end (frames : list Frame) :
  forall c : Ctl,
    Forall (fun d => is_end d = false) (snd (keyboard_loop c frames)).
Proof.
  induction frames as [| f rest IH]; intros c; [constructor |].
  simpl. destruct (running (fst c)); [| constructor].
  pose proof (keyboard_frame_no_end f c) as H1.
  destruct (keyboard_frame f c) as [c1 sent1].
  pose proof (IH c1) as H2.
  destruct (keyboard_loop c1 rest) as [c2 sent2].
  simpl in *. apply Forall_app. now split.
Qed.

Lemma count_none (p : DroneCmd -> bool) (l : list DroneCmd) :
  Forall (fun d => p d = false) l -> count_cmd p l = 0%nat.
Proof.
  unfold count_cmd. induction 1 as [| d l Hd Hl IH]; [reflexivity |].
  simpl. now rewrite Hd.
Qed.

(** X10.  Whatever keys and events the frames carry and whatever state
    the run starts in, [run] from the keyboard loop on calls [end()]
    exactly once, as its very last call on the drone, and leaves
    [running] cleared. *)
Theorem run_main_ends_once (self : TelloEMGControl) (frames : list Frame) :
  count_cmd is_end (snd (run_main self frames)) = 1%nat /\
  last (snd (run_main self frames)) takeoff = end_ /\
  running (fst (run_main self frames)) = false.
Proof.
  unfold run_main, keyboard_control.
  pose proof (keyboard_loop_no_end frames (self, mkRotation false false))
    as Hk.
  destruct (keyboard_loop (self, mkRotation false false) frames)
    as [c sent].
  simpl in Hk. unfold shutdown. cbn [fst snd].
  repeat split.
  - unfold count_cmd in *. rewrite !filter_app, !length_app.
    pose proof (count_none is_end sent Hk) as H0. unfold count_cmd in H0.
    rewrite H0. unfold land_if_flying.
    now destruct (is_flying (fst c)).
  - rewrite app_assoc. apply last_last.
Qed.

(** ** The keyboard loop and the simulated drone *)

Lemma sim_calls_app (sim : TelloSimulator.t) (a b : list DroneCmd) :
  sim_calls sim (a ++ b) = sim_calls (sim_calls sim a) b.
Proof. unfold sim_calls. apply fold_left_app. Qed.

Lemma keyboard_frame_sim_flag (f : Frame) (c : Ctl) (sim : TelloSimulator.t) :
  asks_quit f = false ->
  TelloSimulator.is_flying sim = is_flying (fst c) ->
  TelloSimulator.is_flying (sim_calls sim (snd (keyboard_frame f c))) =
  is_flying (fst (fst (keyboard_frame f c))).
Proof.
  destruct c as [[buf fl sp st rn] [cw ccw]].
  destruct f as [evs [kt kl kr ks kq]].
  destruct sim as [bat ssp [[x y] z] sfl].
  unfold asks_quit. cbn [events keys K_q fst is_flying TelloSimulator.is_flying].
  intros Q ->.
  frame_cases evs; try discriminate; reflexivity.
Qed.

(** X9.  As long as no frame asks to quit, the controller's own
    [is_flying] flag and the simulated drone stay in step: after the
    simulator has executed every call the keyboard loop made, its
    [is_flying] equals the controller's. *)
Theorem simulator_flag_in_step (frames : list Frame) :
  forall (c : Ctl) (sim : TelloSimulator.t),
    forallb (fun f => negb (asks_quit f)) frames = true ->
    TelloSimulator.is_flying sim = is_flying (fst c) ->
    TelloSimulator.is_flying (sim_calls sim (snd (keyboard_loop c frames))) =
    is_flying (fst (fst (keyboard_loop c frames))).
Proof.
  induction frames as [| f rest IH]; intros c sim Hq Hs; [exact Hs |].
  simpl in Hq. apply andb_true_iff in Hq. destruct Hq as [Hf Hrest].
  apply negb_true_iff in Hf.
  simpl. destruct (running (fst c)); [| exact Hs].
  pose proof (keyboard_frame_sim_flag f c sim Hf Hs) as H1.
  destruct (keyboard_frame f c) as [c1 sent1]. simpl in H1.
  pose proof (IH c1 (sim_calls sim sent1) Hrest H1) as H2.
  destruct (keyboard_loop c1 rest) as [c2 sent2]. simpl in *.
  now rewrite sim_calls_app.
Qed.

(** Takeoff, rotation, landing, takeoff again, on the fresh simulator. *)
Lemma simulator_flag_in_step_witness :
  let frames := [frame_t; frame_r; frame_shift_r; frame_l; frame_idle;
                 frame_t] in
  let c := (init, mkRotation false false) in
  TelloSimulator.is_flying
    (sim_calls TelloSimulator.init (snd (keyboard_loop c frames))) =
  is_flying (fst (fst (keyboard_loop c frames))).
Proof.
  apply (simulator_flag_in_step
           [frame_t; frame_r; frame_shift_r; frame_l; frame_idle; frame_t]
           (init, mkRotation false false) TelloSimulator.init);
    reflexivity.
Defined.

(** ** Keyboard frames on the ground *)

(** X13.  A frame reached on the ground without the takeoff key held
    leaves the drone grounded and sends nothing but yaw-0 stops left over
    from a rotation (at most two), never a takeoff, a landing or a
    movement; this also covers [q] and the window-close event. *)
Theorem grounded_frame_sends_only_stops (f : Frame) (c : Ctl) :
  is_flying (fst c) = false ->
  K_t (keys f) = false ->
  is_flying (fst (fst (keyboard_frame f c))) = false /\
  Forall (fun d => is_stop d = true) (snd (keyboard_frame f c)) /\
  (length (snd (keyboard_frame f c)) <= 2)%nat.
Proof.
  destruct c as [[buf fl sp st rn] [cw ccw]].
  destruct f as [evs [kt kl kr ks kq]].
  cbn [fst is_flying keys K_t]. intros -> ->.
  frame_cases evs; cbn; repeat split; repeat constructor.
Qed.

Lemma grounded_frame_sends_only_stops_witness :
  let f := mkFrame [QUIT] (mkKeys false true true true true) in
  let c := (init, mkRotation true true) in
  is_flying (fst (fst (keyboard_frame f c))) = false /\
  Forall (fun d => is_stop d = true) (snd (keyboard_frame f c)) /\
  (length (snd (keyboard_frame f c)) <= 2)%nat.
Proof.
  apply (grounded_frame_sends_only_stops
           (mkFrame [QUIT] (mkKeys false true true true true))
           (init, mkRotation true true)); reflexivity.
Defined.

(** ** One axis at a time *)

Lemma keyboard_frame_single_axis (f : Frame) (c : Ctl) :
  speed (fst (fst (keyboard_frame f c))) = speed (fst c) /\
  Forall (fun d => is_takeoff d || is_land d || is_yaw_only (speed (fst c)) d
                   = true)
    (snd (keyboard_frame f c)).
Proof.
  destruct c as [[buf fl sp st rn] [cw ccw]].
  destruct f as [evs [kt kl kr ks kq]].
  cbn [fst speed].
  frame_cases evs; cbn [fst snd speed app]; (split; [reflexivity |]);
    repeat constructor; cbn;
    rewrite ?Z.eqb_refl, ?orb_true_r; reflexivity.
Qed.

(** X12.  Every call either thread can make while its loop runs, taken
    one call at a time and from any state whatever, drives at most one
    axis.  A call of the EMG thread, for a command and intensity that
    either processing function returned in any state and dispatched in
    any state of non-negative speed, is a [send_rc_control] with pitch in
    [-speed, speed] and roll, up/down and yaw 0.  A call of a keyboard
    frame, in any state, is a takeoff, a landing, or a [send_rc_control]
    with yaw speed, -speed or 0 and roll, pitch and up/down 0.  Neither
    thread writes [speed].  Since this holds of each call in every state,
    it holds however the two threads interleave: roll and up/down are
    never commanded and no call carries a pitch and a yaw together. *)
Theorem every_call_single_axis (sp : Z) :
  (0 <= sp)%Z ->
  (forall (processing dispatching : TelloEMGControl) (data : list Q)
          (raw : EmgData) (ci : Command * Q),
     snd (process_joystick processing data) = Some ci \/
     snd (process_raw_emg processing raw) = Some ci ->
     speed dispatching = sp ->
     Forall (fun d => is_pitch_only sp d = true)
       (emg_actuation dispatching (fst ci) (snd ci))) /\
  (forall (f : Frame) (c : Ctl),
     speed (fst c) = sp ->
     speed (fst (fst (keyboard_frame f c))) = sp /\
     Forall (fun d => is_takeoff d || is_land d || is_yaw_only sp d = true)
       (snd (keyboard_frame f c))) /\
  (forall (self : TelloEMGControl) (data : list Q) (raw : EmgData),
     speed (fst (process_joystick self data)) = speed self /\
     speed (fst (process_raw_emg self raw)) = speed self).
Proof.
  intros Hs. split; [| split].
  - intros processing dispatching data raw ci Hci <-.
    apply emg_actuation_pitch_only; [exact Hs |].
    destruct Hci as [Hj | Hr].
    + exact (process_joystick_unit processing data ci Hj).
    + exact (process_raw_emg_unit processing raw ci Hr).
  - intros f c <-. destruct (keyboard_frame_single_axis f c) as [E H].
    split; [exact E | exact H].
  - intros self data raw. split.
    + apply process_joystick_fields.
    + apply process_raw_emg_fields.
Qed.

(** A strong sample processed on the ground and dispatched after the
    takeoff; a frame with Shift+r held in the air. *)
Lemma every_call_single_axis_witness :
  let airborne := set_is_flying init true in
  match snd (process_joystick init [9; 0]) with
  | Some ci =>
      fst ci = forward /\
      Forall (fun d => is_pitch_only 30 d = true)
        (emg_actuation airborne (fst ci) (snd ci))
  | None => False
  end /\
  Forall (fun d => is_takeoff d || is_land d || is_yaw_only 30 d = true)
    (snd (keyboard_frame frame_shift_r (airborne, mkRotation false false))).
Proof.
  destruct (every_call_single_axis 30) as (He & Hk & _); [lia |].
  split.
  - pose proof (He init (set_is_flying init true) [9; 0] (Scalar 0)) as H.
    destruct (snd (process_joystick init [9; 0])) as [ci |] eqn:E;
      [| discriminate].
    split; [injection E as <-; reflexivity |].
    apply H; [now left | reflexivity].
  - apply (Hk frame_shift_r (set_is_flying init true, mkRotation false false)).
    reflexivity.
Defined.

(** ** The simulated drone under the EMG loop *)

Lemma is_pitch_only_inv (bound : Z) (d : DroneCmd) :
  is_pitch_only bound d = true ->
  exists fb, d = send_rc_control 0 fb 0 0.
Proof.
  destruct d as [| | | lr fb ud yaw]; try discriminate.
  simpl. intros H.
  apply andb_true_iff in H. destruct H as [H _].
  apply andb_true_iff in H. destruct H as [H Hy].
  apply andb_true_iff in H. destruct H as [Hl Hu].
  apply Z.eqb_eq in Hl, Hu, Hy. subst. now exists fb.
Qed.

Lemma grounded_sim_ignores (bound : Z) (sent : list DroneCmd)
  (sim : TelloSimulator.t) :
  Forall (fun d => is_pitch_only bound d = true) sent ->
  TelloSimulator.is_flying sim = false ->
  sim_calls sim sent = sim.
Proof.
  intros H G. induction H as [| d rest Hd Hrest IH]; [reflexivity |].
  destruct (is_pitch_only_inv bound d Hd) as [fb ->].
  unfold sim_calls in *. simpl.
  unfold TelloSimulator.send_rc_control. rewrite G. simpl. exact IH.
Qed.

Lemma flying_sim_moves_along_y (bound : Z) (sent : list DroneCmd) :
  Forall (fun d => is_pitch_only bound d = true) sent ->
  forall sim : TelloSimulator.t,
    TelloSimulator.is_flying sim = true ->
    TelloSimulator.is_flying (sim_calls sim sent) = true /\
    pos_x (sim_calls sim sent) == pos_x sim /\
    pos_z (sim_calls sim sent) == pos_z sim /\
    (Forall (fun d => (0 <= pitch_of d)%Z) sent ->
     pos_y sim <= pos_y (sim_calls sim sent)) /\
    (Forall (fun d => (pitch_of d <= 0)%Z) sent ->
     pos_y (sim_calls sim sent) <= pos_y sim).
Proof.
  induction 1 as [| d rest Hd Hrest IH]; intros sim F.
  - unfold sim_calls. cbn [fold_left].
    repeat split; try reflexivity; try exact F; intros; apply Qle_refl.
  - destruct (is_pitch_only_inv bound d Hd) as [fb ->].
    destruct sim as [bat ssp [[x y] z] sfl]. simpl in F. subst sfl.
    change (sim_calls (TelloSimulator.mk bat ssp (x, y, z) true)
              (send_rc_control 0 fb 0 0 :: rest))
      with (sim_calls
              (TelloSimulator.mk bat ssp
                 (x + inject_Z 0 * (1 # 10),
                  y + inject_Z fb * (1 # 10),
                  z + inject_Z 0 * (1 # 10)) true) rest).
    destruct (IH (TelloSimulator.mk bat ssp
                    (x + inject_Z 0 * (1 # 10),
                     y + inject_Z fb * (1 # 10),
                     z + inject_Z 0 * (1 # 10)) true) eq_refl)
      as (F' & Hx & Hz & Hup & Hdown).
    split; [exact F' |].
    unfold pos_x, pos_y, pos_z in *. cbn [TelloSimulator.position fst snd] in *.
    change (inject_Z 0) with 0 in *.
    split; [lra |]. split; [lra |]. split.
    + intros Hall. inversion Hall as [| d' rest' Hfb Hrest']; subst.
      cbn [pitch_of] in Hfb. specialize (Hup Hrest').
      assert (0 <= inject_Z fb)
        by (change 0 with (inject_Z 0); now rewrite <- Zle_Qle).
      lra.
    + intros Hall. inversion Hall as [| d' rest' Hfb Hrest']; subst.
      cbn [pitch_of] in Hfb. specialize (Hdown Hrest').
      assert (inject_Z fb <= 0)
        by (change 0 with (inject_Z 0); now rewrite <- Zle_Qle).
      lra.
Qed.

(** X14.  The simulated drone under the calls of a whole run of
    [emg_control_loop] (non-negative speed): on the ground it does not
    change at all; airborne it stays airborne, keeps its left/right and
    height coordinates, and moves along the forward/backward axis only,
    not backward when no pitch sent is negative and not forward when none
    is positive. *)
Theorem simulator_under_emg_loop (self : TelloEMGControl)
  (src : SampleSource) (sim : TelloSimulator.t) :
  (0 <= speed self)%Z ->
  let sent := snd (emg_control_loop self src) in
  (TelloSimulator.is_flying sim = false -> sim_calls sim sent = sim) /\
  (TelloSimulator.is_flying sim = true ->
     TelloSimulator.is_flying (sim_calls sim sent) = true /\
     pos_x (sim_calls sim sent) == pos_x sim /\
     pos_z (sim_calls sim sent) == pos_z sim /\
     (Forall (fun d => (0 <= pitch_of d)%Z) sent ->
      pos_y sim <= pos_y (sim_calls sim sent)) /\
     (Forall (fun d => (pitch_of d <= 0)%Z) sent ->
      pos_y (sim_calls sim sent) <= pos_y sim)).
Proof.
  intros Hs sent.
  pose proof (emg_control_loop_pitch_only self src Hs) as H.
  split.
  - now apply (grounded_sim_ignores (speed self)).
  - now apply (flying_sim_moves_along_y (speed self)).
Qed.

(** An airborne controller and simulator and three samples of axis value
    5: the smoothed values 0.5, 1.0 and 1.5 send the pitches 15, 30 and
    30, and the simulated drone moves forward, by no other axis. *)
Lemma simulator_under_emg_loop_witness :
  let self := set_is_flying init true in
  let sim := TelloSimulator.takeoff TelloSimulator.init in
  let sent := snd (emg_control_loop self
                     (Inlet [Some [5; 0]; Some [5; 0]; Some [5; 0]])) in
  sent = [send_rc_control 0 15 0 0; send_rc_control 0 30 0 0;
          send_rc_control 0 30 0 0] /\
  TelloSimulator.is_flying (sim_calls sim sent) = true /\
  pos_x (sim_calls sim sent) == pos_x sim /\
  pos_z (sim_calls sim sent) == pos_z sim /\
  pos_y sim <= pos_y (sim_calls sim sent).
Proof.
  cbv zeta. split; [reflexivity |].
  destruct (simulator_under_emg_loop (set_is_flying init true)
              (Inlet [Some [5; 0]; Some [5; 0]; Some [5; 0]])
              (TelloSimulator.takeoff TelloSimulator.init))
    as (_ & Hfly); [simpl; lia |].
  destruct Hfly as (F & Hx & Hz & Hup & _); [reflexivity |].
  split; [exact F |]. split; [exact Hx |]. split; [exact Hz |].
  apply Hup.
  change (snd (emg_control_loop (set_is_flying init true)
                 (Inlet [Some [5; 0]; Some [5; 0]; Some [5; 0]])))
    with [send_rc_control 0 15 0 0; send_rc_control 0 30 0 0;
          send_rc_control 0 30 0 0].
  repeat constructor; simpl; lia.
Defined.

(** ** The simulation loop and the smoother *)

Lemma simulation_iteration_ok (self : TelloEMGControl) (xy : Q * Q) :
  emg_buffer self <> [] ->
  fst (simulation_iteration self xy) = fst (process_joystick self (sample_of xy))
  /\ running (fst (simulation_iteration self xy)) = running self
  /\ emg_buffer (fst (simulation_iteration self xy)) <> [].
Proof.
  intros Hb. destruct (emg_buffer self) as [| r0 rest] eqn:E; [congruence |].
  unfold simulation_iteration. change [fst xy; snd xy] with (sample_of xy).
  rewrite (process_joystick_pair self r0 rest xy E).
  destruct (classify_joystick _) as [command intensity]. simpl.
  repeat split. destruct rest; discriminate.
Qed.

(** X15.  On a buffer with rows the simulation loop never raises: it
    leaves [running] as it found it, and while running its final state is
    that of the smoother fed with every generated sample in turn. *)
Theorem simulation_loop_is_the_smoother (samples : list (Q * Q)) :
  forall self : TelloEMGControl,
    emg_buffer self <> [] ->
    running (fst (emg_control_loop self (Generator samples))) = running self /\
    (running self = true ->
     fst (emg_control_loop self (Generator samples)) =
     observe_all self (map sample_of samples)).
Proof.
  simpl. induction samples as [| xy rest IH]; intros self Hb.
  - simpl. now split.
  - simpl. destruct (running self) eqn:R.
    + destruct (simulation_iteration_ok self xy Hb) as (E1 & R1 & B1).
      destruct (simulation_iteration self xy) as [self1 sent1].
      simpl in E1, R1, B1.
      destruct (IH self1 B1) as [R2 E2].
      destruct (while_running simulation_iteration self1 rest)
        as [self2 sent2].
      simpl in *. split; [congruence |].
      intros _. rewrite <- E1. apply E2. congruence.
    + simpl. split; [exact R | discriminate].
Qed.

Lemma simulation_loop_is_the_smoother_witness :
  running (fst (emg_control_loop init (Generator [(1, 0); (- (1), 1 # 2)])))
  = running init /\
  fst (emg_control_loop init (Generator [(1, 0); (- (1), 1 # 2)])) =
  observe_all init (map sample_of [(1, 0); (- (1), 1 # 2)]).
Proof.
  destruct (simulation_loop_is_the_smoother [(1, 0); (- (1), 1 # 2)] init)
    as [R E]; [discriminate |].
  split; [exact R | apply E; reflexivity].
Defined.

(** ** The first sample on a fresh controller *)

(** X16.  On a fresh controller the window holds nine zeros besides the
    first sample, so the first sample alone moves nothing unless its axis
    value exceeds 2 in magnitude: for -2 <= x <= 2 [process_joystick]
    returns (hover, 0) whatever the second channel is. *)
Theorem first_sample_hovers (x y : Q) :
  - (2) <= x <= 2 ->
  snd (process_joystick init [x; y]) = Some (hover, 0).
Proof.
  intros [Hlo Hhi].
  change [x; y] with (sample_of (x, y)).
  rewrite (process_joystick_pair init (0, 0) (repeat (0, 0) 9) (x, y) eq_refl).
  cbn [snd]. f_equal.
  set (xv := x_value _).
  assert (Hx : xv == x * (1 # 10)).
  { unfold xv, x_value, np_mean, column0, Qsum.
    cbn [emg_buffer set_emg_buffer repeat app map fst fold_right length].
    change (inject_Z (Z.of_nat 10)) with 10. unfold Qdiv.
    change (/ 10) with (1 # 10). lra. }
  unfold classify_joystick. split_tests; try reflexivity; lra.
Qed.

Lemma first_sample_hovers_witness :
  snd (process_joystick init [3 # 2; 7]) = Some (hover, 0).
Proof.
  apply (first_sample_hovers (3 # 2) 7). split; unfold Qle; simpl; lia.
Defined.
